(** * Transform propagation in the QSM preprocessing pipeline

    A shallow embedding of
      - [exploratory_pipeline/registration/coreg_pipeline.py]
      - [exploratory_pipeline/registration/reg_mspace_masks.py]
      - [exploratory_pipeline/preprocessing/reorient.py]
    together with the part of the Python standard library ([os.path],
    [str]) and of SimpleITK that these scripts call; nibabel is an
    interface.

    Conventions.
      - Python [str] is [string]; a slice index that may be [-1] is a [Z].
      - Physical coordinates and [sitkFloat32] intensities are exact
        rationals ([Q]); binary rounding is not modelled.
      - The file system, standard output and the log of executed SimpleITK
        filters are threaded explicitly through a state-and-exception monad.
      - The iterative optimiser of [ImageRegistrationMethod] is the one
        native kernel that is left abstract, as a type class. *)

From Stdlib Require Import ZArith QArith Qround Qabs Lqa String Ascii List Lia.
From stdpp Require Import gmap strings list fin_maps.

Open Scope string_scope.
Open Scope list_scope.
Open Scope Z_scope.

(* ===================================================================== *)
(** ** Python strings *)
(* ===================================================================== *)

Module Py.

(** [p.rfind(c)] for a one-character [c]: the highest index of [c] in [p],
    or [-1]. *)
Fixpoint rfind (p : string) (c : ascii) : Z :=
  match p with
  | EmptyString => -1
  | String a s =>
      let r := rfind s c in
      if 0 <=? r then r + 1
      else if Ascii.eqb a c then 0 else -1
  end.

(** [p[:i]] for [0 <= i]. *)
Fixpoint slice_to (i : nat) (p : string) : string :=
  match i, p with
  | O, _ => EmptyString
  | S _, EmptyString => EmptyString
  | S j, String a s => String a (slice_to j s)
  end.

(** [p[i:]] for [0 <= i]. *)
Fixpoint slice_from (i : nat) (p : string) : string :=
  match i, p with
  | O, _ => p
  | S _, EmptyString => EmptyString
  | S j, String _ s => slice_from j s
  end.

(** [p[i:i+1] != c] for [0 <= i]: an index past the end gives the empty
    slice, which differs from any one-character string. *)
Definition char_differs (p : string) (i : nat) (c : ascii) : bool :=
  match String.get i p with
  | Some a => negb (Ascii.eqb a c)
  | None => true
  end.

(** [p.startswith(q)]. *)
Definition startswith (p q : string) : bool := String.prefix q p.

(** [p.endswith(c)] for a one-character [c]. *)
Fixpoint endswith (p : string) (c : ascii) : bool :=
  match p with
  | EmptyString => false
  | String a EmptyString => Ascii.eqb a c
  | String _ s => endswith s c
  end.

(** [q in p] (substring test). *)
Fixpoint contains (p q : string) : bool :=
  String.prefix q p ||
  match p with
  | EmptyString => false
  | String _ s => contains s q
  end.

(** The last character, if any. *)
Fixpoint last_char (p : string) : option ascii :=
  match p with
  | EmptyString => None
  | String a EmptyString => Some a
  | String _ s => last_char s
  end.

End Py.

(* ===================================================================== *)
(** ** [os.path] (POSIX flavour) *)
(* ===================================================================== *)

Module os_path.

Definition sep : ascii := "/"%char.
Definition extsep : ascii := "."%char.

(** The [while filenameIndex < dotIndex] loop of [genericpath._splitext]:
    [Some] is the early [return p[:dotIndex], p[dotIndex:]], [None] is
    falling out of the loop.  [fuel] counts the remaining iterations. *)
Fixpoint _splitext_loop (p : string) (dotIndex : nat)
         (fuel : nat) (filenameIndex : nat) : option (string * string) :=
  match fuel with
  | O => None
  | S fuel' =>
      if Py.char_differs p filenameIndex extsep
      then Some (Py.slice_to dotIndex p, Py.slice_from dotIndex p)
      else _splitext_loop p dotIndex fuel' (S filenameIndex)
  end.

(** [genericpath._splitext(p, sep, altsep, extsep)]. *)
Definition _splitext (p : string) (sep : ascii) (altsep : option ascii)
           (extsep : ascii) : string * string :=
  let sepIndex := Py.rfind p sep in
  let sepIndex :=
    match altsep with
    | Some alt => Z.max sepIndex (Py.rfind p alt)
    | None => sepIndex
    end in
  let dotIndex := Py.rfind p extsep in
  if sepIndex <? dotIndex then
    (* skip all leading dots *)
    let filenameIndex := sepIndex + 1 in
    match _splitext_loop p (Z.to_nat dotIndex)
            (Z.to_nat (dotIndex - filenameIndex)) (Z.to_nat filenameIndex) with
    | Some r => r
    | None => (p, EmptyString)
    end
  else (p, EmptyString).

(** [os.path.splitext(p)]. *)
Definition splitext (p : string) : string * string :=
  _splitext p sep None extsep.

(** [os.path.join(a, b)] with one trailing component. *)
Definition join (a b : string) : string :=
  if Py.startswith b "/" then b
  else if (String.eqb a "" || Py.endswith a sep)%bool then a +:+ b
  else a +:+ "/" +:+ b.

End os_path.

(* ===================================================================== *)
(** ** SimpleITK: images, transforms, resampling *)
(* ===================================================================== *)

Module sitk.

Inductive PixelIDValue := sitkUInt8 | sitkFloat32.
Inductive InterpolatorEnum := sitkNearestNeighbor | sitkLinear.

Definition Vec3 : Type := Q * Q * Q.
Definition Mat3 : Type := Vec3 * Vec3 * Vec3.   (* three rows *)
Definition Index3 : Type := Z * Z * Z.

Definition vadd (a b : Vec3) : Vec3 :=
  let '(a0, a1, a2) := a in let '(b0, b1, b2) := b in
  (a0 + b0, a1 + b1, a2 + b2)%Q.

Definition vsub (a b : Vec3) : Vec3 :=
  let '(a0, a1, a2) := a in let '(b0, b1, b2) := b in
  (a0 - b0, a1 - b1, a2 - b2)%Q.

(** Component-wise product. *)
Definition vscale (a b : Vec3) : Vec3 :=
  let '(a0, a1, a2) := a in let '(b0, b1, b2) := b in
  (a0 * b0, a1 * b1, a2 * b2)%Q.

Definition dot (a b : Vec3) : Q :=
  let '(a0, a1, a2) := a in let '(b0, b1, b2) := b in
  (a0 * b0 + a1 * b1 + a2 * b2)%Q.

Definition mulMV (m : Mat3) (v : Vec3) : Vec3 :=
  let '(r0, r1, r2) := m in (dot r0 v, dot r1 v, dot r2 v).

Definition identity3 : Mat3 := ((1, 0, 0), (0, 1, 0), (0, 0, 1))%Q.

Definition det3 (m : Mat3) : Q :=
  let '((a, b, c), (d, e, f), (g, h, i)) := m in
  (a * (e * i - f * h) - b * (d * i - f * g) + c * (d * h - e * g))%Q.

(** Inverse by the adjugate.  A singular matrix is rejected by ITK when the
    image is created; here division by zero yields [0]. *)
Definition inv3 (m : Mat3) : Mat3 :=
  let '((a, b, c), (d, e, f), (g, h, i)) := m in
  let k := det3 m in
  (((e * i - f * h) / k, (c * h - b * i) / k, (b * f - c * e) / k),
   ((f * g - d * i) / k, (a * i - c * g) / k, (c * d - a * f) / k),
   ((d * h - e * g) / k, (b * g - a * h) / k, (a * e - b * d) / k))%Q.

Definition vecZ (i : Index3) : Vec3 :=
  let '(x, y, z) := i in (inject_Z x, inject_Z y, inject_Z z).

(** The sampling grid of an image: what [SetReferenceImage] copies. *)
Record Grid := {
  Size : Index3;
  Origin : Vec3;
  Spacing : Vec3;
  Direction : Mat3
}.

Record Image := {
  PixelID : PixelIDValue;
  grid : Grid;
  buffer : list Q          (* raster order, first axis fastest *)
}.

Definition GetSize (img : Image) := Size (grid img).
Definition GetOrigin (img : Image) := Origin (grid img).
Definition GetSpacing (img : Image) := Spacing (grid img).
Definition GetDirection (img : Image) := Direction (grid img).

(** [itk::ImageBase::TransformContinuousIndexToPhysicalPoint]. *)
Definition TransformContinuousIndexToPhysicalPoint (g : Grid) (c : Vec3) : Vec3 :=
  vadd (Origin g) (mulMV (Direction g) (vscale (Spacing g) c)).

Definition TransformIndexToPhysicalPoint (g : Grid) (i : Index3) : Vec3 :=
  TransformContinuousIndexToPhysicalPoint g (vecZ i).

(** [itk::ImageBase::TransformPhysicalPointToContinuousIndex]. *)
Definition TransformPhysicalPointToContinuousIndex (g : Grid) (p : Vec3) : Vec3 :=
  let '(s0, s1, s2) := Spacing g in
  let '(c0, c1, c2) := mulMV (inv3 (Direction g)) (vsub p (Origin g)) in
  (c0 / s0, c1 / s1, c2 / s2)%Q.

(** Pixel access by index; the buffer offset is [x + nx * (y + ny * z)]. *)
Definition GetPixel (img : Image) (i : Index3) : Q :=
  let '(x, y, z) := i in
  let '(nx, ny, _) := GetSize img in
  nth (Z.to_nat (x + nx * (y + ny * z))) (buffer img) 0%Q.

(** All indices of a grid in raster order. *)
Definition indices (size : Index3) : list Index3 :=
  let '(nx, ny, nz) := size in
  z ← seqZ 0 nz; y ← seqZ 0 ny; x ← seqZ 0 nx; [(x, y, z)].

(** Rounding toward zero, as a C++ float-to-integer conversion does. *)
Definition Qtruncate (v : Q) : Z := Z.quot (Qnum v) (Z.pos (Qden v)).

(** C++ [static_cast] to the pixel type.  [sitkFloat32] keeps the rational;
    [sitkUInt8] truncates toward zero and wraps modulo 256. *)
Definition static_cast (ty : PixelIDValue) (v : Q) : Q :=
  match ty with
  | sitkFloat32 => v
  | sitkUInt8 => inject_Z (Qtruncate v mod 256)
  end.

(** [itk::ResampleImageFilter::CastPixelWithBoundsChecking]. *)
Definition CastPixelWithBoundsChecking (ty : PixelIDValue) (v : Q) : Q :=
  match ty with
  | sitkFloat32 => v
  | sitkUInt8 =>
      if Qle_bool v 0 then 0%Q
      else if Qle_bool 255 v then 255%Q
      else static_cast sitkUInt8 v
  end.

(** [sitk.Cast], as applied by [ReadImage(path, outputPixelType)]. *)
Definition Cast (img : Image) (ty : PixelIDValue) : Image :=
  {| PixelID := ty; grid := grid img; buffer := map (static_cast ty) (buffer img) |}.

(** *** Transforms *)

Inductive TransformKind := Euler3DTransformKind | AffineTransformKind.

(** A matrix-offset transform with a centre: [x ↦ M (x - c) + t + c].  The
    rotation of an Euler transform is carried as its matrix. *)
Record Transform := {
  kind : TransformKind;
  Matrix : Mat3;
  Center : Vec3;
  Translation : Vec3
}.

Definition Euler3DTransform : Transform :=
  {| kind := Euler3DTransformKind; Matrix := identity3;
     Center := (0, 0, 0)%Q; Translation := (0, 0, 0)%Q |}.

Definition AffineTransform (dimension : Z) : Transform :=
  {| kind := AffineTransformKind; Matrix := identity3;
     Center := (0, 0, 0)%Q; Translation := (0, 0, 0)%Q |}.

Definition TransformPoint (t : Transform) (p : Vec3) : Vec3 :=
  vadd (vadd (mulMV (Matrix t) (vsub p (Center t))) (Translation t)) (Center t).

(** *** CenteredTransformInitializer *)

Inductive OperationMode := GEOMETRY | MOMENTS.

(** Physical position of the centre of the image's bounding box: the
    continuous index [(size - 1) / 2] on every axis. *)
Definition geometric_center (img : Image) : Vec3 :=
  let '(nx, ny, nz) := GetSize img in
  TransformContinuousIndexToPhysicalPoint (grid img)
    ((inject_Z nx - 1) / 2, (inject_Z ny - 1) / 2, (inject_Z nz - 1) / 2)%Q.

(** Intensity-weighted centre of mass ([ImageMomentsCalculator]). *)
Definition center_of_gravity (img : Image) : Vec3 :=
  let weighted :=
    map (fun i => (GetPixel img i, TransformIndexToPhysicalPoint (grid img) i))
        (indices (GetSize img)) in
  let mass := fold_right (fun vp acc => (fst vp + acc)%Q) 0%Q weighted in
  let '(sx, sy, sz) :=
    fold_right (fun vp acc => vadd (vscale (fst vp, fst vp, fst vp) (snd vp)) acc)
               (0, 0, 0)%Q weighted in
  (sx / mass, sy / mass, sz / mass)%Q.

Definition CenteredTransformInitializer (fixedImage movingImage : Image)
           (transform : Transform) (operationMode : OperationMode) : Transform :=
  let '(centerFixed, centerMoving) :=
    match operationMode with
    | GEOMETRY => (geometric_center fixedImage, geometric_center movingImage)
    | MOMENTS => (center_of_gravity fixedImage, center_of_gravity movingImage)
    end in
  {| kind := kind transform;
     Matrix := Matrix transform;
     Center := centerFixed;
     Translation := vsub centerMoving centerFixed |}.

(** *** Interpolation *)

(** [interpolator->IsInsideBuffer(cindex)]: on every axis
    [-1/2 <= c < size - 1/2]. *)
Definition inside_axis (c : Q) (n : Z) : bool :=
  Qle_bool (- (1 # 2)) c && negb (Qle_bool (inject_Z n - (1 # 2)) c).

Definition IsInsideBuffer (img : Image) (c : Vec3) : bool :=
  let '(c0, c1, c2) := c in
  let '(nx, ny, nz) := GetSize img in
  inside_axis c0 nx && inside_axis c1 ny && inside_axis c2 nz.

(** [itk::Math::RoundHalfIntegerUp]. *)
Definition RoundHalfIntegerUp (c : Q) : Z := Qfloor (c + (1 # 2)).

Definition NearestNeighborInterpolate (img : Image) (c : Vec3) : Q :=
  let '(c0, c1, c2) := c in
  GetPixel img (RoundHalfIntegerUp c0, RoundHalfIntegerUp c1, RoundHalfIntegerUp c2).

(** One axis of [LinearInterpolateImageFunction]: lower neighbour, upper
    neighbour and the weight of the upper one.  The lower neighbour is
    clamped to the first index; at or beyond the last index the upper
    neighbour is not read. *)
Definition linear_axis (c : Q) (n : Z) : Z * Z * Q :=
  let lo := Z.max (Qfloor c) 0 in
  let d := (c - inject_Z lo)%Q in
  if Qle_bool d 0 then (lo, lo, 0%Q)
  else if n - 1 <? lo + 1 then (lo, lo, 0%Q)
  else (lo, lo + 1, d).

Definition LinearInterpolate (img : Image) (c : Vec3) : Q :=
  let '(c0, c1, c2) := c in
  let '(nx, ny, nz) := GetSize img in
  let '(x0, x1, tx) := linear_axis c0 nx in
  let '(y0, y1, ty) := linear_axis c1 ny in
  let '(z0, z1, tz) := linear_axis c2 nz in
  let lerp (t a b : Q) : Q := (a + t * (b - a))%Q in
  let along_x (y z : Z) := lerp tx (GetPixel img (x0, y, z)) (GetPixel img (x1, y, z)) in
  let along_xy (z : Z) := lerp ty (along_x y0 z) (along_x y1 z) in
  lerp tz (along_xy z0) (along_xy z1).

Definition Interpolate (i : InterpolatorEnum) : Image -> Vec3 -> Q :=
  match i with
  | sitkNearestNeighbor => NearestNeighborInterpolate
  | sitkLinear => LinearInterpolate
  end.

(** *** ResampleImageFilter *)

Record ResampleImageFilter := {
  OutputGrid : Grid;
  Interpolator : InterpolatorEnum;
  DefaultPixelValue : Q;
  ResampleTransform : Transform
}.

(** [sitk.ResampleImageFilter()]: the defaults of a fresh filter. *)
Definition new_ResampleImageFilter : ResampleImageFilter :=
  {| OutputGrid := {| Size := (0, 0, 0); Origin := (0, 0, 0)%Q;
                      Spacing := (1, 1, 1)%Q; Direction := identity3 |};
     Interpolator := sitkLinear;
     DefaultPixelValue := 0%Q;
     ResampleTransform := AffineTransform 3 |}.

Definition SetReferenceImage (refImage : Image) (f : ResampleImageFilter) :=
  {| OutputGrid := grid refImage; Interpolator := Interpolator f;
     DefaultPixelValue := DefaultPixelValue f;
     ResampleTransform := ResampleTransform f |}.

Definition SetInterpolator (i : InterpolatorEnum) (f : ResampleImageFilter) :=
  {| OutputGrid := OutputGrid f; Interpolator := i;
     DefaultPixelValue := DefaultPixelValue f;
     ResampleTransform := ResampleTransform f |}.

Definition SetDefaultPixelValue (v : Q) (f : ResampleImageFilter) :=
  {| OutputGrid := OutputGrid f; Interpolator := Interpolator f;
     DefaultPixelValue := v;
     ResampleTransform := ResampleTransform f |}.

Definition SetTransform (t : Transform) (f : ResampleImageFilter) :=
  {| OutputGrid := OutputGrid f; Interpolator := Interpolator f;
     DefaultPixelValue := DefaultPixelValue f;
     ResampleTransform := t |}.

(** Where output voxel [i] lands in the input image, as a continuous index:
    output index → physical point → through the transform → input index. *)
Definition source_index (f : ResampleImageFilter) (input : Image) (i : Index3) : Vec3 :=
  TransformPhysicalPointToContinuousIndex (grid input)
    (TransformPoint (ResampleTransform f)
       (TransformIndexToPhysicalPoint (OutputGrid f) i)).

(** One output voxel of [itk::ResampleImageFilter]. *)
Definition resample_voxel (f : ResampleImageFilter) (input : Image) (i : Index3) : Q :=
  let c := source_index f input i in
  if IsInsideBuffer input c
  then CastPixelWithBoundsChecking (PixelID input) (Interpolate (Interpolator f) input c)
  else static_cast (PixelID input) (DefaultPixelValue f).

(** The pure part of [resampler.Execute(input)]. *)
Definition Resample (f : ResampleImageFilter) (input : Image) : Image :=
  {| PixelID := PixelID input;
     grid := OutputGrid f;
     buffer := map (resample_voxel f input) (indices (Size (OutputGrid f))) |}.

End sitk.

(* ===================================================================== *)
(** ** ImageRegistrationMethod *)
(* ===================================================================== *)

Module ImageRegistrationMethod.

Inductive SamplingStrategy := NONE | REGULAR | RANDOM.

(** The [seed] argument of [SetMetricSamplingPercentage]; SimpleITK's
    default is [sitkWallClock]. *)
Inductive Seed := sitkWallClock | FixedSeed (s : Z).

(** A registration method object is the sequence of configuration calls
    made on it, in call order; [sitk.ImageRegistrationMethod()] is [[]]. *)
Inductive Setting :=
  | SetMetricAsMattesMutualInformation (numberOfHistogramBins : Z)
  | SetMetricSamplingStrategy (strategy : SamplingStrategy)
  | SetMetricSamplingPercentage (percentage : Q) (seed : Seed)
  | SetInterpolator (interpolator : sitk.InterpolatorEnum)
  | SetOptimizerAsRegularStepGradientDescent
      (learningRate minStep : Q) (numberOfIterations : Z)
      (gradientMagnitudeTolerance : Q)
  | SetOptimizerScalesFromPhysicalShift
  | SetShrinkFactorsPerLevel (shrinkFactors : list Z)
  | SetSmoothingSigmasPerLevel (smoothingSigmas : list Q)
  | SmoothingSigmasAreSpecifiedInPhysicalUnitsOn
  | SetInitialTransform (transform : sitk.Transform) (inPlace : bool).

(** The seed in force: the one given with the last
    [SetMetricSamplingPercentage], the wall clock if there is none. *)
Definition sampling_seed (R : list Setting) : Seed :=
  fold_left (fun acc c => match c with
                          | SetMetricSamplingPercentage _ s => s
                          | _ => acc
                          end) R sitkWallClock.

(** The transform given with the last [SetInitialTransform]. *)
Definition initial_transform (R : list Setting) : option sitk.Transform :=
  fold_left (fun acc c => match c with
                          | SetInitialTransform t _ => Some t
                          | _ => acc
                          end) R None.

(** Why the optimiser stopped
    ([GetOptimizerStopConditionDescription] after [Execute]). *)
Inductive StopCondition :=
  | MaximumNumberOfIterations
  | StepTooSmall
  | GradientMagnitudeTolerance
  | ConvergenceCheckerPassed.

(** What the method object holds after [Execute] besides the returned
    transform. *)
Record Report := {
  GetOptimizerStopCondition : StopCondition;
  GetOptimizerIteration : Z;
  GetMetricValue : Q
}.

(** The spec's [converged] flag: false exactly when the iteration cap
    stopped the optimiser. *)
Definition converged (r : Report) : bool :=
  match GetOptimizerStopCondition r with
  | MaximumNumberOfIterations => false
  | _ => true
  end.

(** The native multi-resolution optimiser.  It sees the whole
    configuration, the sampling seed actually drawn, and both images; it
    either throws (message) or yields the final transform and the report. *)
Class Optimizer := {
  optimize : list Setting -> Z -> sitk.Image -> sitk.Image ->
             string + (sitk.Transform * Report)
}.

End ImageRegistrationMethod.

(* ===================================================================== *)
(** ** The world: files, clock, standard output, filter log *)
(* ===================================================================== *)

Inductive exn :=
  | RuntimeError (msg : string)         (* raised by SimpleITK *)
  | FileNotFoundError (path : string)   (* raised by [os.listdir] *)
  | NotADirectoryError (path : string).

Inductive Node :=
  | ImageFile (img : sitk.Image)
  | TransformFile (t : sitk.Transform)
  | OtherFile
  | Directory (entries : list string).

(** One execution of a SimpleITK filter.  The log is an observation device:
    no modelled function reads it. *)
Inductive FilterRun :=
  | RegistrationRun (R : list ImageRegistrationMethod.Setting) (seed : Z)
                    (fixed moving : sitk.Image)
  | ResampleRun (f : sitk.ResampleImageFilter) (input : sitk.Image).

Record World := {
  fs : gmap string Node;
  wall_clock : Z;
  stdout : list string;
  executed : list FilterRun
}.

Inductive Outcome (A : Type) :=
  | Returned (a : A) (w : World)
  | Raised (e : exn) (w : World).
Arguments Returned {A} a w.
Arguments Raised {A} e w.

Definition Proc (A : Type) : Type := World -> Outcome A.

#[export] Instance Proc_ret : MRet Proc := fun A a w => Returned a w.

#[export] Instance Proc_bind : MBind Proc := fun A B k m w =>
  match m w with
  | Returned a w' => k a w'
  | Raised e w' => Raised e w'
  end.

Definition raise {A} (e : exn) : Proc A := fun w => Raised e w.

Definition final_world {A} (o : Outcome A) : World :=
  match o with Returned _ w => w | Raised _ w => w end.

Definition with_fs (f : gmap string Node) (w : World) : World :=
  {| fs := f; wall_clock := wall_clock w; stdout := stdout w; executed := executed w |}.

Definition log_run (r : FilterRun) (w : World) : World :=
  {| fs := fs w; wall_clock := wall_clock w; stdout := stdout w;
     executed := executed w ++ [r] |}.

Definition with_line (s : string) (w : World) : World :=
  {| fs := fs w; wall_clock := wall_clock w; stdout := stdout w ++ [s];
     executed := executed w |}.

(** [print(s)]. *)
Definition print (s : string) : Proc unit := fun w => Returned tt (with_line s w).

(** The newline written as [\n] inside the source's string literals. *)
Definition nl : string := String "010"%char EmptyString.

(** [for x in l: body(x)]. *)
Fixpoint for_each {A} (l : list A) (body : A -> Proc unit) : Proc unit :=
  match l with
  | [] => mret tt
  | x :: l' => body x;; for_each l' body
  end.

Module os.

Definition isdir (path : string) : Proc bool := fun w =>
  Returned (match fs w !! path with Some (Directory _) => true | _ => false end) w.

Definition isfile (path : string) : Proc bool := fun w =>
  Returned (match fs w !! path with
            | Some (Directory _) | None => false
            | Some _ => true
            end) w.

Definition listdir (path : string) : Proc (list string) := fun w =>
  match fs w !! path with
  | Some (Directory entries) => Returned entries w
  | Some _ => Raised (NotADirectoryError path) w
  | None => Raised (FileNotFoundError path) w
  end.

End os.

(** *** SimpleITK procedures that touch the world *)

Module sitk_io.
Import sitk.

(** [sitk.ReadImage(path, outputPixelType)]. *)
Definition ReadImage (path : string) (outputPixelType : PixelIDValue) : Proc Image :=
  fun w =>
    match fs w !! path with
    | Some (ImageFile img) => Returned (Cast img outputPixelType) w
    | _ => Raised (RuntimeError ("ReadImage: " +:+ path)) w
    end.

(** [sitk.ReadTransform(path)]: the stored transform, parameter for
    parameter. *)
Definition ReadTransform (path : string) : Proc Transform := fun w =>
  match fs w !! path with
  | Some (TransformFile t) => Returned t w
  | _ => Raised (RuntimeError ("ReadTransform: " +:+ path)) w
  end.

(** [sitk.WriteImage(image, path)].  Writing replaces a file; a directory
    cannot be overwritten.  Directory listings are not refreshed: the
    scripts never list a directory they write into. *)
Definition WriteImage (image : Image) (path : string) : Proc unit := fun w =>
  match fs w !! path with
  | Some (Directory _) => Raised (RuntimeError ("WriteImage: " +:+ path)) w
  | _ => Returned tt (with_fs (<[path := ImageFile image]> (fs w)) w)
  end.

(** [sitk.WriteTransform(transform, path)]. *)
Definition WriteTransform (transform : Transform) (path : string) : Proc unit :=
  fun w =>
    match fs w !! path with
    | Some (Directory _) => Raised (RuntimeError ("WriteTransform: " +:+ path)) w
    | _ => Returned tt (with_fs (<[path := TransformFile transform]> (fs w)) w)
    end.

(** [resampler.Execute(input)]. *)
Definition ResampleExecute (f : ResampleImageFilter) (input : Image) : Proc Image :=
  fun w => Returned (Resample f input) (log_run (ResampleRun f input) w).

(** The seed a registration run samples with: the configured one, or the
    wall clock's value when the configuration says [sitkWallClock]. *)
Definition drawn_seed (R : list ImageRegistrationMethod.Setting) (w : World) : Z :=
  match ImageRegistrationMethod.sampling_seed R with
  | ImageRegistrationMethod.sitkWallClock => wall_clock w
  | ImageRegistrationMethod.FixedSeed s => s
  end.

(** [registration_method.Execute(fixed, moving)].  Returns the final
    transform together with the state the method object is left in. *)
Definition RegistrationExecute `{O : ImageRegistrationMethod.Optimizer}
           (R : list ImageRegistrationMethod.Setting) (fixed moving : Image)
  : Proc (Transform * ImageRegistrationMethod.Report) :=
  fun w =>
    let seed := drawn_seed R w in
    let w' := log_run (RegistrationRun R seed fixed moving) w in
    match ImageRegistrationMethod.optimize R seed fixed moving with
    | inl msg => Raised (RuntimeError msg) w'
    | inr r => Returned r w'
    end.

End sitk_io.

(* ===================================================================== *)
(** ** coreg_pipeline.py *)
(* ===================================================================== *)

Module coreg_pipeline.
Import sitk sitk_io ImageRegistrationMethod.

Section WithOptimizer.
Context `{O : Optimizer}.

Definition register_t1_to_magnitude (t1_path magnitude_path : string)
           (out_matrix out_registered : option string) (rigid : bool)
  : Proc (string * string) :=
  (* Define default output paths if not provided *)
  let out_registered :=
    match out_registered with
    | None => let base := fst (os_path.splitext t1_path) in base +:+ "_toMag.nii.gz"
    | Some p => p
    end in
  let out_matrix :=
    match out_matrix with
    | None => let base := fst (os_path.splitext t1_path) in base +:+ "_toMag_transform.tfm"
    | Some p => p
    end in
  (* Read the fixed (magnitude) and moving (T1) images *)
  fixed_image ← ReadImage magnitude_path sitkFloat32;
  moving_image ← ReadImage t1_path sitkFloat32;
  (* Initialize transform: rigid (Euler3DTransform) or affine (AffineTransform) *)
  let initial_transform :=
    if rigid
    then CenteredTransformInitializer fixed_image moving_image
           Euler3DTransform GEOMETRY
    else CenteredTransformInitializer fixed_image moving_image
           (AffineTransform 3) GEOMETRY in
  (* Set up the registration method, optimizer, multi-resolution framework *)
  let registration_method :=
    [ SetMetricAsMattesMutualInformation 50;
      SetMetricSamplingStrategy RANDOM;
      SetMetricSamplingPercentage (1 # 100) sitkWallClock;  (* no seed given *)
      SetInterpolator sitkLinear;
      SetOptimizerAsRegularStepGradientDescent 2 (1 # 10000) 200 (1 # 100000000);
      SetOptimizerScalesFromPhysicalShift;
      SetShrinkFactorsPerLevel [4; 2; 1];
      SetSmoothingSigmasPerLevel [2; 1; 0]%Q;
      SmoothingSigmasAreSpecifiedInPhysicalUnitsOn;
      SetInitialTransform initial_transform false ] in
  (* Execute the registration; the state left in the method object is not
     looked at again *)
  '(final_transform, _) ← RegistrationExecute registration_method fixed_image moving_image;
  (* Resample the moving image using the final transform *)
  let resampler := new_ResampleImageFilter in
  let resampler := SetReferenceImage fixed_image resampler in
  let resampler := sitk.SetInterpolator sitkLinear resampler in
  let resampler := SetDefaultPixelValue 0 resampler in
  let resampler := SetTransform final_transform resampler in
  registered_image ← ResampleExecute resampler moving_image;
  (* Save the registered image and the transform *)
  WriteImage registered_image out_registered;;
  WriteTransform final_transform out_matrix;;
  print (nl +:+ "[Registration Complete]");;
  print ("  Fixed (Magnitude): " +:+ magnitude_path);;
  print ("  Moving  (T1):      " +:+ t1_path);;
  print ("  => Registered T1:  " +:+ out_registered);;
  print ("  => Transform:      " +:+ out_matrix);;
  mret (out_registered, out_matrix).

Definition apply_transform_to_mask (mask_path magnitude_path transform_matrix : string)
           (out_mask : option string) : Proc string :=
  let out_mask :=
    match out_mask with
    | None => let base := fst (os_path.splitext mask_path) in base +:+ "_toMag.nii.gz"
    | Some p => p
    end in
  (* Read the fixed image (for reference) and the mask image *)
  fixed_image ← ReadImage magnitude_path sitkFloat32;
  mask_image ← ReadImage mask_path sitkUInt8;
  (* Read the transformation *)
  transform ← ReadTransform transform_matrix;
  (* Resample the mask using nearest neighbor interpolation *)
  let resampler := new_ResampleImageFilter in
  let resampler := SetReferenceImage fixed_image resampler in
  let resampler := sitk.SetInterpolator sitkNearestNeighbor resampler in
  let resampler := SetDefaultPixelValue 0 resampler in
  let resampler := SetTransform transform resampler in
  resampled_mask ← ResampleExecute resampler mask_image;
  (* Save the resampled mask *)
  WriteImage resampled_mask out_mask;;
  print (nl +:+ "[Mask Resampling Complete]");;
  print ("  Fixed (Magnitude): " +:+ magnitude_path);;
  print ("  Mask:              " +:+ mask_path);;
  print ("  => Resampled Mask: " +:+ out_mask);;
  mret out_mask.

Definition apply_transform_to_flair (flair_path magnitude_path transform_matrix : string)
           (out_flair : option string) : Proc string :=
  let out_flair :=
    match out_flair with
    | None => let base := fst (os_path.splitext flair_path) in base +:+ "_toMag.nii.gz"
    | Some p => p
    end in
  (* Read the fixed image and the FLAIR image *)
  fixed_image ← ReadImage magnitude_path sitkFloat32;
  flair_image ← ReadImage flair_path sitkFloat32;
  (* Read the transformation computed from T1 registration *)
  transform ← ReadTransform transform_matrix;
  (* Resample the FLAIR image using linear interpolation *)
  let resampler := new_ResampleImageFilter in
  let resampler := SetReferenceImage fixed_image resampler in
  let resampler := sitk.SetInterpolator sitkLinear resampler in
  let resampler := SetDefaultPixelValue 0 resampler in
  let resampler := SetTransform transform resampler in
  resampled_flair ← ResampleExecute resampler flair_image;
  (* Save the resampled FLAIR image *)
  WriteImage resampled_flair out_flair;;
  print (nl +:+ "[FLAIR Resampling Complete]");;
  print ("  Fixed (Magnitude): " +:+ magnitude_path);;
  print ("  FLAIR:             " +:+ flair_path);;
  print ("  => Resampled FLAIR:" +:+ out_flair);;
  mret out_flair.

Definition main_registration_pipeline (t1_path flair magnitude_path mask_path : string)
  : Proc (string * string * string) :=
  '(registered_t1, transform_matrix) ←
     register_t1_to_magnitude t1_path magnitude_path None None false;
  transformed_mask ← apply_transform_to_mask mask_path magnitude_path transform_matrix None;
  registered_flair ← apply_transform_to_flair flair magnitude_path transform_matrix None;
  mret (registered_t1, transformed_mask, registered_flair).

End WithOptimizer.
End coreg_pipeline.

(* ===================================================================== *)
(** ** reg_mspace_masks.py *)
(* ===================================================================== *)

Module reg_mspace_masks.
Import sitk sitk_io.

Definition apply_transform_to_mask (mask_path magnitude_path transform_matrix : string)
           (out_mask : option string) : Proc string :=
  let out_mask :=
    match out_mask with
    | None => let base := fst (os_path.splitext mask_path) in base +:+ "_toMag.nii.gz"
    | Some p => p
    end in
  (* Read the fixed image (reference) and the mask image *)
  fixed_image ← ReadImage magnitude_path sitkFloat32;
  mask_image ← ReadImage mask_path sitkUInt8;
  (* Read the transformation *)
  transform ← ReadTransform transform_matrix;
  (* Resample the mask using nearest neighbor interpolation *)
  let resampler := new_ResampleImageFilter in
  let resampler := SetReferenceImage fixed_image resampler in
  let resampler := SetInterpolator sitkNearestNeighbor resampler in
  let resampler := SetDefaultPixelValue 0 resampler in
  let resampler := SetTransform transform resampler in
  resampled_mask ← ResampleExecute resampler mask_image;
  (* Save the resampled mask *)
  WriteImage resampled_mask out_mask;;
  print (nl +:+ "[Mask Resampling Complete]");;
  print ("  Fixed (Magnitude): " +:+ magnitude_path);;
  print ("  Mask:              " +:+ mask_path);;
  print ("  => Resampled Mask: " +:+ out_mask);;
  mret out_mask.

(** Steps 4 to 6 of the year-folder loop: the body run for one
    [folder_name] of [patient_path]. *)
Definition year_folder_body (patient_path lesion_label_file folder_name : string)
  : Proc unit :=
  let year_path := os_path.join patient_path folder_name in
  is_dir ← os.isdir year_path;
  if negb is_dir then mret tt else
  if negb (Py.startswith folder_name "20") then mret tt (* Not a year folder *) else
  (* 4) Look for 'registered' folder *)
  let registered_folder := os_path.join year_path "registered" in
  is_dir ← os.isdir registered_folder;
  if negb is_dir
  then print ("  No 'registered' folder in " +:+ year_path +:+ ", skipping.") else
  (* 5) Identify the transform matrix and magnitude image *)
  let transform_matrix :=
    os_path.join registered_folder "T1_corrected_canonical.nii_toMag_transform.tfm" in
  is_file ← os.isfile transform_matrix;
  if negb is_file
  then print ("  Transform matrix not found in " +:+ registered_folder +:+ ", skipping.") else
  let magnitude_path := os_path.join registered_folder "mag_canonical.nii.gz" in
  is_file ← os.isfile magnitude_path;
  if negb is_file
  then print ("  Magnitude image not found in " +:+ registered_folder +:+ ", skipping.") else
  (* 6) Apply transform to the lesion label file *)
  let out_mask_path := os_path.join registered_folder "lesions_MSpace_Mask.nii.gz" in
  print ("  Applying transform for year folder: " +:+ folder_name);;
  apply_transform_to_mask lesion_label_file magnitude_path transform_matrix
                          (Some out_mask_path);;
  mret tt.

(** The body of the patient loop, for one [patient_id] of [root_dir]. *)
Definition patient_body (root_dir patient_id : string) : Proc unit :=
  let patient_path := os_path.join root_dir patient_id in
  is_dir ← os.isdir patient_path;
  if negb is_dir then mret tt else
  print (nl +:+ "=== Processing patient: " +:+ patient_id +:+ " in " +:+ root_dir +:+ " ===");;
  (* 2) Locate the RESULTS_xnatSpaceMS folder and find the lesion label file *)
  let results_folder := os_path.join patient_path "RESULTS_xnatSpaceMS" in
  is_dir ← os.isdir results_folder;
  if negb is_dir
  then print ("  No RESULTS_xnatSpaceMS folder found for " +:+ patient_id +:+ ", skipping.") else
  (* first entry whose name contains the marker, as the loop with [break] *)
  entries ← os.listdir results_folder;
  let lesion_label_file :=
    os_path.join results_folder <$>
      find (fun f => Py.contains f "lesion_labels.nii.gz") entries in
  match lesion_label_file with
  | None => print ("  No lesion_labels.nii.gz found in " +:+ results_folder +:+ ", skipping.")
  | Some lesion_label_file =>
      (* 3) Loop over year folders that start with '20' *)
      folders ← os.listdir patient_path;
      for_each folders (year_folder_body patient_path lesion_label_file)
  end.

Definition transform_lesion_labels_in_directory (root_dir : string) : Proc unit :=
  (* 1) Loop over patient folders *)
  patients ← os.listdir root_dir;
  for_each patients (patient_body root_dir).

End reg_mspace_masks.

(* ===================================================================== *)
(** ** Vocabulary of the specifications *)
(* ===================================================================== *)

Module Spec.
Import sitk ImageRegistrationMethod.

(** An output path: the one given, or the default derived from [path]. *)
Definition or_default (given : option string) (path suffix : string) : string :=
  match given with
  | None => fst (os_path.splitext path) +:+ suffix
  | Some p => p
  end.

(** The resampler every function of the two scripts ends up with. *)
Definition configured_resampler (reference : Image) (i : InterpolatorEnum)
           (t : Transform) : ResampleImageFilter :=
  {| OutputGrid := grid reference; Interpolator := i;
     DefaultPixelValue := 0%Q; ResampleTransform := t |}.

(** The initial transform of [register_t1_to_magnitude]. *)
Definition initializer_of (rigid : bool) (fixed moving : Image) : Transform :=
  CenteredTransformInitializer fixed moving
    (if rigid then Euler3DTransform else AffineTransform 3) GEOMETRY.

(** The registration method object at the time of [Execute]. *)
Definition registration_setup (initial : Transform) : list Setting :=
  [ SetMetricAsMattesMutualInformation 50;
    SetMetricSamplingStrategy RANDOM;
    SetMetricSamplingPercentage (1 # 100) sitkWallClock;
    ImageRegistrationMethod.SetInterpolator sitkLinear;
    SetOptimizerAsRegularStepGradientDescent 2 (1 # 10000) 200 (1 # 100000000);
    SetOptimizerScalesFromPhysicalShift;
    SetShrinkFactorsPerLevel [4; 2; 1];
    SetSmoothingSigmasPerLevel [2; 1; 0]%Q;
    SmoothingSigmasAreSpecifiedInPhysicalUnitsOn;
    SetInitialTransform initial false ].

Definition registration_messages (magnitude_path t1_path out_registered out_matrix : string)
  : list string :=
  [ nl +:+ "[Registration Complete]";
    "  Fixed (Magnitude): " +:+ magnitude_path;
    "  Moving  (T1):      " +:+ t1_path;
    "  => Registered T1:  " +:+ out_registered;
    "  => Transform:      " +:+ out_matrix ].

Definition mask_messages (magnitude_path mask_path out_mask : string) : list string :=
  [ nl +:+ "[Mask Resampling Complete]";
    "  Fixed (Magnitude): " +:+ magnitude_path;
    "  Mask:              " +:+ mask_path;
    "  => Resampled Mask: " +:+ out_mask ].

Definition flair_messages (magnitude_path flair_path out_flair : string) : list string :=
  [ nl +:+ "[FLAIR Resampling Complete]";
    "  Fixed (Magnitude): " +:+ magnitude_path;
    "  FLAIR:             " +:+ flair_path;
    "  => Resampled FLAIR:" +:+ out_flair ].



Definition is_registration (r : FilterRun) : bool :=
  match r with RegistrationRun _ _ _ _ => true | ResampleRun _ _ => false end.

(** A procedure logs only filter runs satisfying [P], and what it returns
    satisfies [Q]; both on normal and on exceptional termination. *)
Definition emits {A} (P : FilterRun -> Prop) (Q : A -> Prop) (m : Proc A) : Prop :=
  forall w,
    (exists new, executed (final_world (m w)) = executed w ++ new /\ Forall P new) /\
    (forall a w', m w = Returned a w' -> Q a).

(** What a caller or a later process can see of an outcome: the value or
    exception, the files, and the printed lines. *)
Definition observable {A} (o : Outcome A) : (A + exn) * gmap string Node * list string :=
  match o with
  | Returned a w => (inl a, fs w, stdout w)
  | Raised e w => (inr e, fs w, stdout w)
  end.

Definition not_directory (files : gmap string Node) (path : string) : Prop :=
  forall entries, files !! path <> Some (Directory entries).



Definition veq (a b : Vec3) : Prop :=
  let '(a0, a1, a2) := a in let '(b0, b1, b2) := b in
  (a0 == b0 /\ a1 == b1 /\ a2 == b2)%Q.

(** [moving] is [fixed] moved by [d]: same shape, spacing and axes, origin
    displaced by [d]. *)
Definition pure_translation (fixed moving : Image) (d : Vec3) : Prop :=
  GetSize moving = GetSize fixed /\
  GetSpacing moving = GetSpacing fixed /\
  GetDirection moving = GetDirection fixed /\
  veq (GetOrigin moving) (vadd (GetOrigin fixed) d).

(** Every component of [a - b] is at most the voxel spacing on its axis. *)
Definition within_one_voxel (a b spacing : Vec3) : Prop :=
  let '(a0, a1, a2) := a in let '(b0, b1, b2) := b in
  let '(s0, s1, s2) := spacing in
  (Qabs (a0 - b0) <= s0 /\ Qabs (a1 - b1) <= s1 /\ Qabs (a2 - b2) <= s2)%Q.

Definition positive_spacing (img : Image) : Prop :=
  let '(s0, s1, s2) := GetSpacing img in (0 < s0 /\ 0 < s1 /\ 0 < s2)%Q.

(** [i] is a voxel of the grid. *)
Definition in_grid (g : Grid) (i : Index3) : Prop :=
  let '(x, y, z) := i in let '(nx, ny, nz) := Size g in
  0 <= x < nx /\ 0 <= y < ny /\ 0 <= z < nz.



(** Two optimisers that return the same transforms and throw the same
    errors, whatever they report about how they stopped. *)
Definition same_transforms (O1 O2 : Optimizer) : Prop :=
  forall R seed fixed moving,
    sum_map id fst (optimize (Optimizer := O1) R seed fixed moving)
    = sum_map id fst (optimize (Optimizer := O2) R seed fixed moving).



(** [out] is [source] resampled by [f] into the space of [reference]: it
    lies on the reference's grid (size, origin, spacing, axes), and each of
    its voxels that [f] maps outside the source's buffer holds [0]. *)
Definition resampled_onto (reference : Image) (f : ResampleImageFilter)
           (source out : Image) : Prop :=
  out = Resample f source /\
  grid out = grid reference /\
  forall i, in_grid (grid reference) i ->
            IsInsideBuffer source (source_index f source i) = false ->
            GetPixel out i = 0%Q.

End Spec.

(* ===================================================================== *)
(** ** Concrete optimisers, images and worlds used in the examples *)
(* ===================================================================== *)

Module Fixtures.
Import sitk ImageRegistrationMethod.

Definition report (stop : StopCondition) (iterations : Z) : Report :=
  {| GetOptimizerStopCondition := stop;
     GetOptimizerIteration := iterations;
     GetMetricValue := 0%Q |}.

(** An optimiser that accepts the initial transform at once. *)
Definition keeps_initial : Optimizer :=
  {| optimize R _ _ _ :=
       match initial_transform R with
       | Some t => inr (t, report GradientMagnitudeTolerance 12)
       | None => inl "initial transform not set"
       end |}.

(** The same transform, but reached by running into the iteration cap. *)
Definition hits_iteration_cap : Optimizer :=
  {| optimize R _ _ _ :=
       match initial_transform R with
       | Some t => inr (t, report MaximumNumberOfIterations 200)
       | None => inl "initial transform not set"
       end |}.



(** An optimiser that always throws. *)
Definition throws : Optimizer :=
  {| optimize _ _ _ _ := inl "metric: too many samples map outside moving image buffer" |}.

Definition unit_grid (size : Index3) (origin : Vec3) : Grid :=
  {| Size := size; Origin := origin; Spacing := (1, 1, 1)%Q; Direction := identity3 |}.

Definition magnitude : Image :=
  {| PixelID := sitkFloat32; grid := unit_grid (2, 2, 1) (0, 0, 0)%Q;
     buffer := [10; 20; 30; 40]%Q |}.

(** The T1 lies one voxel further along the first axis. *)
Definition t1 : Image :=
  {| PixelID := sitkFloat32; grid := unit_grid (2, 2, 1) (1, 0, 0)%Q;
     buffer := [1; 2; 3; 4]%Q |}.

Definition flair : Image :=
  {| PixelID := sitkFloat32; grid := unit_grid (2, 2, 1) (1, 0, 0)%Q;
     buffer := [5; 6; 7; 8]%Q |}.

Definition mask : Image :=
  {| PixelID := sitkUInt8; grid := unit_grid (2, 2, 1) (1, 0, 0)%Q;
     buffer := [0; 3; 7; 3]%Q |}.


Definition world_of (files : list (string * Node)) (clock : Z) : World :=
  {| fs := list_to_map files; wall_clock := clock; stdout := []; executed := [] |}.

(** One case with all four inputs. *)
Definition complete_case : list (string * Node) :=
  [ ("case/T1.nii.gz", ImageFile t1);
    ("case/mag.nii.gz", ImageFile magnitude);
    ("case/mask.nii.gz", ImageFile mask);
    ("case/FLAIR.nii.gz", ImageFile flair) ].

(** The same case without its mask file. *)
Definition case_without_mask : list (string * Node) :=
  [ ("case/T1.nii.gz", ImageFile t1);
    ("case/mag.nii.gz", ImageFile magnitude);
    ("case/FLAIR.nii.gz", ImageFile flair) ].


(** A longitudinal study: one patient, one visit, before registration. *)
Definition study : list (string * Node) :=
  [ ("study", Directory ["p01"; "README.txt"]);
    ("study/README.txt", OtherFile);
    ("study/p01", Directory ["2021_03"; "RESULTS_xnatSpaceMS"; "scratch"]);
    ("study/p01/scratch", Directory []);
    ("study/p01/RESULTS_xnatSpaceMS", Directory ["p01_lesion_labels.nii.gz"]);
    ("study/p01/RESULTS_xnatSpaceMS/p01_lesion_labels.nii.gz", ImageFile mask);
    ("study/p01/2021_03", Directory ["registered"]);
    ("study/p01/2021_03/registered",
       Directory ["T1_corrected_canonical.nii.gz"; "mag_canonical.nii.gz"]);
    ("study/p01/2021_03/registered/T1_corrected_canonical.nii.gz", ImageFile t1);
    ("study/p01/2021_03/registered/mag_canonical.nii.gz", ImageFile magnitude) ].

(** A case with a stored identity transform: the mask lies one voxel
    beside the magnitude image and is not moved onto it. *)
Definition unaligned_case : list (string * Node) :=
  [ ("case/mag.nii.gz", ImageFile magnitude);
    ("case/mask.nii.gz", ImageFile mask);
    ("case/identity.tfm", TransformFile (AffineTransform 3)) ].

End Fixtures.

(* ===================================================================== *)
(** ** More of Python's strings and paths *)
(* ===================================================================== *)

Module Str.

(** [p.replace(old, new)] for a non-empty [old]: scan from the left; at a
    match emit [new] and skip the rest of the match ([skip] characters
    still to drop), otherwise copy one character. *)
Fixpoint replace_from (skip : nat) (p old new : string) : string :=
  match p with
  | EmptyString => EmptyString
  | String a s =>
      match skip with
      | S k => replace_from k s old new
      | O =>
          if String.prefix old p
          then new +:+ replace_from (String.length old - 1) s old new
          else String a (replace_from 0 s old new)
      end
  end.

(** [p.replace("", new)]: [new] before every character and at the end. *)
Fixpoint replace_empty (p new : string) : string :=
  match p with
  | EmptyString => new
  | String a s => new +:+ String a (replace_empty s new)
  end.

(** [p.replace(old, new)]. *)
Definition replace (p old new : string) : string :=
  match old with
  | EmptyString => replace_empty p new
  | String _ _ => replace_from 0 p old new
  end.

(** Whether the character [c] occurs in [p]. *)
Fixpoint has_char (c : ascii) (p : string) : bool :=
  match p with
  | EmptyString => false
  | String a s => Ascii.eqb a c || has_char c s
  end.

End Str.

Module posixpath.

(** [os.path.basename(p)]: what follows the last [/]. *)
Definition basename (p : string) : string :=
  let i := Py.rfind p os_path.sep + 1 in
  Py.slice_from (Z.to_nat i) p.

(** [os.path.exists(path)]. *)
Definition path_exists (path : string) : Proc bool := fun w =>
  Returned (match fs w !! path with Some _ => true | None => false end) w.

(** [os.makedirs], left to the host: it may create any directories and
    raise as the operating system decides. *)
Class Host := {
  makedirs : string -> Proc unit
}.

End posixpath.

(* ===================================================================== *)
(** ** nibabel, as far as [reorient.py] uses it *)
(* ===================================================================== *)

Module nib.

(** The library is an interface: an image type, loading and saving (which
    touch the world and may raise), and the pure reorientation. *)
Class Nibabel := {
  NiftiImage : Type;
  load : string -> Proc NiftiImage;
  save : NiftiImage -> string -> Proc unit;
  as_closest_canonical : NiftiImage -> NiftiImage
}.

End nib.

(* ===================================================================== *)
(** ** reorient.py *)
(* ===================================================================== *)

Module reorient.
Import nib posixpath.

Section WithLibraries.
Context `{N : Nibabel} `{H : Host}.

Definition reorient_to_canonical (image_path : string) (output_path : option string)
  : Proc string :=
  (* Load the image using nibabel. *)
  img ← load image_path;
  (* Reorient the image to the closest canonical orientation. *)
  let canonical_img := as_closest_canonical img in
  (* If no output path is provided, construct one based on the input filename. *)
  let output_path :=
    match output_path with
    | None =>
        let '(base, ext) := os_path.splitext image_path in
        (* Check for .nii.gz files: *)
        if String.eqb ext ".gz" then
          let base := Str.replace image_path ".nii.gz" "" in
          base +:+ "_canonical.nii.gz"
        else base +:+ "_canonical" +:+ ext
    | Some p => p
    end in
  (* Save the reoriented image. *)
  save canonical_img output_path;;
  print ("Reoriented image saved at: " +:+ output_path);;
  mret output_path.

(** The [for img_path in image_paths] loop of [batch_reorient], with the
    list [reoriented_paths] it appends to. *)
Fixpoint batch_reorient_loop (image_paths : list string) (output_dir : string)
         (reoriented_paths : list string) : Proc (list string) :=
  match image_paths with
  | [] => mret reoriented_paths
  | img_path :: rest =>
      (* Derive a new file name in the output directory. *)
      let base :=
        Str.replace (Str.replace (basename img_path) ".nii.gz" "") ".nii" "" in
      let output_path := os_path.join output_dir (base +:+ "_canonical.nii.gz") in
      reoriented_img_path ← reorient_to_canonical img_path (Some output_path);
      batch_reorient_loop rest output_dir (reoriented_paths ++ [reoriented_img_path])
  end.

Definition batch_reorient (image_paths : list string) (output_dir : string)
  : Proc (list string) :=
  dir_exists ← path_exists output_dir;
  (if negb dir_exists then makedirs output_dir else mret tt);;
  batch_reorient_loop image_paths output_dir [].

End WithLibraries.
End reorient.

(* ===================================================================== *)
(** ** Further vocabulary *)
(* ===================================================================== *)

Module Frame.
Import sitk.

(** A procedure that, returning or raising, leaves every file outside [P]
    as it found it. *)
Definition writes_only {A} (P : string -> Prop) (m : Proc A) : Prop :=
  forall w p, ~ P p -> fs (final_world (m w)) !! p = fs w !! p.

(** [p] ends with [suffix]. *)
Definition ends_with (suffix p : string) : Prop := exists q, p = q +:+ suffix.

(** The name [batch_reorient] gives the reoriented copy of [img_path]. *)
Definition reoriented_name (output_dir img_path : string) : string :=
  os_path.join output_dir
    (Str.replace (Str.replace (posixpath.basename img_path) ".nii.gz" "") ".nii" ""
     +:+ "_canonical.nii.gz").

End Frame.

Module MoreFixtures.
Import sitk nib posixpath.

(** nibabel over the modelled file system: images are the stored images,
    reorientation leaves them alone. *)
Definition plain_nibabel : Nibabel :=
  {| NiftiImage := Image;
     load path := fun w =>
       match fs w !! path with
       | Some (ImageFile img) => Returned img w
       | Some _ => Raised (RuntimeError ("not an image: " +:+ path)) w
       | None => Raised (FileNotFoundError path) w
       end;
     save img path := sitk_io.WriteImage img path;
     as_closest_canonical img := img |}.

(** A host whose [makedirs] creates the one directory. *)
Definition plain_host : Host :=
  {| makedirs path := fun w =>
       Returned tt (with_fs (<[path := Directory []]> (fs w)) w) |}.

Definition scans : list (string * Node) :=
  [ ("raw/T1.nii.gz", ImageFile Fixtures.t1);
    ("raw/mask.nii", ImageFile Fixtures.mask);
    ("raw/bundle.tar.gz", ImageFile Fixtures.flair);
    ("old.nii.gz/mag.nii.gz", ImageFile Fixtures.magnitude);
    ("other/T1.nii", ImageFile Fixtures.flair) ].

(** A case whose mask and FLAIR share the stem [case/dep]. *)
Definition same_stem_case : list (string * Node) :=
  [ ("case/T1.nii.gz", ImageFile Fixtures.t1);
    ("case/mag.nii.gz", ImageFile Fixtures.magnitude);
    ("case/dep.nii", ImageFile Fixtures.mask);
    ("case/dep.gz", ImageFile Fixtures.flair) ].

(** A study whose first patient has an unreadable lesion-label entry. *)
Definition broken_study : list (string * Node) :=
  [ ("study", Directory ["p01"; "p02"]);
    ("study/p01", Directory ["2021_03"; "RESULTS_xnatSpaceMS"]);
    ("study/p01/RESULTS_xnatSpaceMS", Directory ["p01_lesion_labels.nii.gz"]);
    ("study/p01/RESULTS_xnatSpaceMS/p01_lesion_labels.nii.gz", OtherFile);
    ("study/p01/2021_03", Directory ["registered"]);
    ("study/p01/2021_03/registered", Directory []);
    ("study/p01/2021_03/registered/T1_corrected_canonical.nii_toMag_transform.tfm",
       TransformFile (AffineTransform 3));
    ("study/p01/2021_03/registered/mag_canonical.nii.gz", ImageFile Fixtures.magnitude);
    ("study/p02", Directory ["2022_01"; "RESULTS_xnatSpaceMS"]);
    ("study/p02/RESULTS_xnatSpaceMS", Directory ["p02_lesion_labels.nii.gz"]);
    ("study/p02/RESULTS_xnatSpaceMS/p02_lesion_labels.nii.gz", ImageFile Fixtures.mask);
    ("study/p02/2022_01", Directory ["registered"]);
    ("study/p02/2022_01/registered", Directory []);
    ("study/p02/2022_01/registered/T1_corrected_canonical.nii_toMag_transform.tfm",
       TransformFile (AffineTransform 3));
    ("study/p02/2022_01/registered/mag_canonical.nii.gz", ImageFile Fixtures.magnitude) ].

End MoreFixtures.

(* ===================================================================== *)
(** * Properties *)
(* ===================================================================== *)

Import sitk sitk_io ImageRegistrationMethod Spec.

(** ** Strings and paths *)

Section Strings.

Lemma append_empty t : "" +:+ t = t.
Proof. reflexivity. Qed.

Lemma append_String a s t : String a s +:+ t = String a (s +:+ t).
Proof. reflexivity. Qed.

Lemma append_assoc s t u : (s +:+ t) +:+ u = s +:+ (t +:+ u).
Proof.
  induction s as [|a s IH]; [reflexivity|].
  rewrite !append_String. now rewrite IH.
Qed.

Lemma append_cancel_l s t u : s +:+ t = s +:+ u -> t = u.
Proof.
  induction s as [|a s IH]; [trivial|].
  rewrite !append_String. intros E. injection E as E. auto.
Qed.

Lemma rfind_range p c : -1 <= Py.rfind p c < Z.of_nat (String.length p).
Proof.
  induction p as [|a s IH]; simpl; [lia|].
  destruct (0 <=? Py.rfind s c) eqn:E.
  - apply Z.leb_le in E. lia.
  - destruct (Ascii.eqb a c); lia.
Qed.

Lemma rfind_app_found s t c :
  0 <= Py.rfind t c ->
  Py.rfind (s +:+ t) c = Z.of_nat (String.length s) + Py.rfind t c.
Proof.
  intros Ht. induction s as [|a s IH].
  - rewrite append_empty. simpl. lia.
  - rewrite append_String. cbn [Py.rfind String.length]. rewrite IH.
    destruct (0 <=? _) eqn:E; [lia|]. apply Z.leb_gt in E. lia.
Qed.

Lemma rfind_app_absent s t c :
  Py.rfind t c = -1 -> Py.rfind (s +:+ t) c = Py.rfind s c.
Proof.
  intros Ht. induction s as [|a s IH]; [exact Ht|].
  rewrite append_String. cbn [Py.rfind]. rewrite IH. reflexivity.
Qed.

Lemma slice_to_app s t k :
  Py.slice_to (String.length s + k) (s +:+ t) = s +:+ Py.slice_to k t.
Proof.
  induction s as [|a s IH]; [reflexivity|].
  rewrite append_String. simpl. now rewrite IH.
Qed.

Lemma slice_from_app s t k :
  Py.slice_from (String.length s + k) (s +:+ t) = Py.slice_from k t.
Proof.
  induction s as [|a s IH]; [reflexivity|]. rewrite append_String. exact IH.
Qed.

Lemma get_app_right s t k :
  String.get (String.length s + k) (s +:+ t) = String.get k t.
Proof.
  induction s as [|a s IH]; [reflexivity|]. rewrite append_String. exact IH.
Qed.

Lemma last_char_app s t :
  t <> "" -> Py.last_char (s +:+ t) = Py.last_char t.
Proof.
  intros Ht. induction s as [|a s IH]; [reflexivity|].
  rewrite append_String. cbn [Py.last_char]. rewrite IH.
  destruct (s +:+ t) eqn:E; [|reflexivity].
  destruct s; [rewrite append_empty in E; congruence | discriminate E].
Qed.

(** The loop leaves at the first character that is not a dot. *)
Lemma _splitext_loop_finds p dotIndex fuel i j :
  (i <= j < i + fuel)%nat ->
  Py.char_differs p j os_path.extsep = true ->
  os_path._splitext_loop p dotIndex fuel i
  = Some (Py.slice_to dotIndex p, Py.slice_from dotIndex p).
Proof.
  revert i. induction fuel as [|fuel IH]; intros i Hj Hd; [lia|].
  simpl. destruct (Py.char_differs p i os_path.extsep) eqn:E; [reflexivity|].
  apply IH; [|exact Hd].
  assert (i <> j) by (intros ->; congruence). lia.
Qed.

(** Only the final [.gz] is split off a [.nii.gz] name. *)
Lemma splitext_nii_gz stem :
  os_path.splitext (stem +:+ ".nii.gz") = (stem +:+ ".nii", ".gz").
Proof.
  unfold os_path.splitext, os_path._splitext.
  rewrite (rfind_app_absent stem ".nii.gz" os_path.sep) by reflexivity.
  rewrite (rfind_app_found stem ".nii.gz" os_path.extsep) by (vm_compute; discriminate).
  change (Py.rfind ".nii.gz" os_path.extsep) with 4.
  pose proof (rfind_range stem os_path.sep) as Hs.
  set (n := String.length stem) in *.
  destruct (_ <? _) eqn:E; [|apply Z.ltb_ge in E; lia].
  rewrite (_splitext_loop_finds _ _ _ _ (n + 1)%nat).
  - replace (Z.to_nat (Z.of_nat n + 4)) with (n + 4)%nat by lia.
    subst n. now rewrite slice_to_app, slice_from_app.
  - clearbody n. lia.
  - unfold Py.char_differs. subst n. now rewrite get_app_right.
Qed.

(** A name ending in [.nii.gz] is never a name ending in [.tfm]. *)
Lemma image_name_is_not_transform_name a b :
  a +:+ "_toMag.nii.gz" <> b +:+ "_toMag_transform.tfm".
Proof.
  intros E. apply (f_equal Py.last_char) in E.
  rewrite !last_char_app in E by discriminate. discriminate E.
Qed.

End Strings.

Example splitext_nii_gz_example :
  os_path.splitext "data/T1_N4_canonical.nii.gz" = ("data/T1_N4_canonical.nii", ".gz").
Proof. reflexivity. Qed.

Example splitext_dotfile : os_path.splitext "a.b/.bashrc" = ("a.b/.bashrc", "").
Proof. reflexivity. Qed.

Example splitext_no_extension : os_path.splitext "a.b/c" = ("a.b/c", "").
Proof. reflexivity. Qed.

Example join_plain :
  os_path.join "p/registered" "mag.nii.gz" = "p/registered/mag.nii.gz".
Proof. reflexivity. Qed.

Example join_absolute : os_path.join "p" "/q" = "/q".
Proof. reflexivity. Qed.

(** ** The procedure monad *)

Section Monad.
Context {A B : Type}.
Implicit Types (m : Proc A) (k : A -> Proc B).

Lemma bind_returned m k w b w' :
  (m ≫= k) w = Returned b w' ->
  exists a w1, m w = Returned a w1 /\ k a w1 = Returned b w'.
Proof.
  unfold mbind, Proc_bind. destruct (m w) as [a w1|e w1]; [eauto|discriminate].
Qed.


Lemma bind_step m k w a w1 : m w = Returned a w1 -> (m ≫= k) w = k a w1.
Proof. unfold mbind, Proc_bind. now intros ->. Qed.

Lemma bind_abort m k w e w1 : m w = Raised e w1 -> (m ≫= k) w = Raised e w1.
Proof. unfold mbind, Proc_bind. now intros ->. Qed.

End Monad.

(** ** The primitives, read backwards (what a normal return tells) and
       forwards (when they return) *)

Section Primitives.

Lemma ReadImage_returned path ty w img w' :
  ReadImage path ty w = Returned img w' ->
  w' = w /\ exists raw, fs w !! path = Some (ImageFile raw) /\ img = Cast raw ty.
Proof.
  unfold ReadImage. destruct (fs w !! path) as [[raw| | |]|]; try discriminate.
  intros E. injection E as <- <-. eauto.
Qed.

Lemma ReadImage_run path ty w raw :
  fs w !! path = Some (ImageFile raw) ->
  ReadImage path ty w = Returned (Cast raw ty) w.
Proof. unfold ReadImage. now intros ->. Qed.

Lemma ReadTransform_returned path w t w' :
  ReadTransform path w = Returned t w' ->
  w' = w /\ fs w !! path = Some (TransformFile t).
Proof.
  unfold ReadTransform. destruct (fs w !! path) as [[|t0| |]|]; try discriminate.
  intros E. injection E as <- <-. auto.
Qed.

Lemma ReadTransform_run path w t :
  fs w !! path = Some (TransformFile t) -> ReadTransform path w = Returned t w.
Proof. unfold ReadTransform. now intros ->. Qed.

Lemma WriteImage_returned img path w u w' :
  WriteImage img path w = Returned u w' ->
  w' = with_fs (<[path := ImageFile img]> (fs w)) w.
Proof.
  unfold WriteImage. destruct (fs w !! path) as [[| | |]|]; try discriminate;
    intros E; injection E as _ <-; reflexivity.
Qed.

Lemma WriteImage_run img path w :
  not_directory (fs w) path ->
  WriteImage img path w = Returned tt (with_fs (<[path := ImageFile img]> (fs w)) w).
Proof.
  unfold WriteImage, not_directory. intros Hnd.
  destruct (fs w !! path) as [[| | |entries]|]; try reflexivity.
  now destruct (Hnd entries).
Qed.

Lemma WriteTransform_returned t path w u w' :
  WriteTransform t path w = Returned u w' ->
  w' = with_fs (<[path := TransformFile t]> (fs w)) w.
Proof.
  unfold WriteTransform. destruct (fs w !! path) as [[| | |]|]; try discriminate;
    intros E; injection E as _ <-; reflexivity.
Qed.


Lemma ResampleExecute_returned f input w out w' :
  ResampleExecute f input w = Returned out w' ->
  out = Resample f input /\ w' = log_run (ResampleRun f input) w.
Proof. unfold ResampleExecute. intros E. injection E as <- <-. auto. Qed.

Lemma RegistrationExecute_returned `{O : Optimizer} R fixed moving w r w' :
  RegistrationExecute R fixed moving w = Returned r w' ->
  optimize R (drawn_seed R w) fixed moving = inr r /\
  w' = log_run (RegistrationRun R (drawn_seed R w) fixed moving) w.
Proof.
  unfold RegistrationExecute.
  destruct (optimize R (drawn_seed R w) fixed moving); [discriminate|].
  intros E. injection E as <- <-. auto.
Qed.



Lemma print_returned s w u w' :
  print s w = Returned u w' -> w' = with_line s w.
Proof. unfold print. intros E. now injection E as _ <-. Qed.

Lemma mret_returned {A} (a b : A) w w' :
  mret (M := Proc) a w = Returned b w' -> b = a /\ w' = w.
Proof. unfold mret, Proc_ret. intros E. injection E as <- <-. auto. Qed.

Lemma not_directory_insert_file files path p node :
  (forall entries, node <> Directory entries) ->
  not_directory files p -> not_directory (<[path := node]> files) p.
Proof.
  unfold not_directory. intros Hn Hp entries.
  destruct (decide (path = p)) as [->|Hne].
  - rewrite lookup_insert_eq. intros E. injection E as E. exact (Hn _ E).
  - rewrite lookup_insert_ne by exact Hne. apply Hp.
Qed.

End Primitives.

(** Peels one [≫=] off a hypothesis [H : (m ≫= k) w = Returned _ _] and
    reads the primitive in front. *)
Ltac peel H :=
  let a := fresh "a" in
  let w1 := fresh "w" in
  let H1 := fresh "Hstep" in
  cbv beta zeta in H;
  apply bind_returned in H as (a & w1 & H1 & H);
  first
    [ let raw := fresh "raw" in let Hfile := fresh "Hfile" in
      apply ReadImage_returned in H1 as (-> & raw & Hfile & ->)
    | let Hfile := fresh "Hfile" in
      apply ReadTransform_returned in H1 as (-> & Hfile)
    | apply WriteImage_returned in H1 as ->
    | apply WriteTransform_returned in H1 as ->
    | apply ResampleExecute_returned in H1 as (-> & ->)
    | let Hopt := fresh "Hopt" in
      apply RegistrationExecute_returned in H1 as (Hopt & ->);
      destruct a as [? ?]
    | apply print_returned in H1 as -> ];
  cbv beta iota zeta in H.

(** ** What a normal return of each function tells *)

Section Returns.
Context `{O : Optimizer}.

Lemma register_t1_to_magnitude_returned
      t1_path magnitude_path out_matrix out_registered rigid w r w' :
  coreg_pipeline.register_t1_to_magnitude
    t1_path magnitude_path out_matrix out_registered rigid w = Returned r w' ->
  exists rawF rawM T rep,
    fs w !! magnitude_path = Some (ImageFile rawF) /\
    fs w !! t1_path = Some (ImageFile rawM) /\
    let fixed := Cast rawF sitkFloat32 in
    let moving := Cast rawM sitkFloat32 in
    let R := registration_setup (initializer_of rigid fixed moving) in
    let out_r := or_default out_registered t1_path "_toMag.nii.gz" in
    let out_m := or_default out_matrix t1_path "_toMag_transform.tfm" in
    let f := configured_resampler fixed sitkLinear T in
    optimize R (wall_clock w) fixed moving = inr (T, rep) /\
    r = (out_r, out_m) /\
    w' = {| fs := <[out_m := TransformFile T]>
                    (<[out_r := ImageFile (Resample f moving)]> (fs w));
            wall_clock := wall_clock w;
            stdout := stdout w ++ registration_messages magnitude_path t1_path out_r out_m;
            executed := executed w ++ [RegistrationRun R (wall_clock w) fixed moving;
                                       ResampleRun f moving] |}.
Proof.
  unfold coreg_pipeline.register_t1_to_magnitude. intros H.
  do 10 peel H.
  apply mret_returned in H as [-> ->].
  exists raw, raw0, t, r0. split; [assumption|]. split; [assumption|].
  cbv zeta. split; [|split].
  - destruct rigid; exact Hopt.
  - reflexivity.
  - unfold with_line, with_fs, log_run, registration_messages; cbn [fs wall_clock stdout executed].
    rewrite <- !app_assoc. destruct rigid; reflexivity.
Qed.

(** The paths [register_t1_to_magnitude] returns are fixed by its
    arguments alone. *)
Lemma register_t1_to_magnitude_paths
      t1_path magnitude_path out_matrix out_registered rigid w r w' :
  coreg_pipeline.register_t1_to_magnitude
    t1_path magnitude_path out_matrix out_registered rigid w = Returned r w' ->
  r = (or_default out_registered t1_path "_toMag.nii.gz",
       or_default out_matrix t1_path "_toMag_transform.tfm").
Proof.
  intros H. apply register_t1_to_magnitude_returned in H
    as (? & ? & ? & ? & _ & _ & _ & -> & _). reflexivity.
Qed.

Lemma apply_transform_to_mask_returned
      mask_path magnitude_path transform_matrix out_mask w r w' :
  reg_mspace_masks.apply_transform_to_mask
    mask_path magnitude_path transform_matrix out_mask w = Returned r w' ->
  exists rawF rawM T,
    fs w !! magnitude_path = Some (ImageFile rawF) /\
    fs w !! mask_path = Some (ImageFile rawM) /\
    fs w !! transform_matrix = Some (TransformFile T) /\
    let fixed := Cast rawF sitkFloat32 in
    let mask_image := Cast rawM sitkUInt8 in
    let out := or_default out_mask mask_path "_toMag.nii.gz" in
    let f := configured_resampler fixed sitkNearestNeighbor T in
    r = out /\
    w' = {| fs := <[out := ImageFile (Resample f mask_image)]> (fs w);
            wall_clock := wall_clock w;
            stdout := stdout w ++ mask_messages magnitude_path mask_path out;
            executed := executed w ++ [ResampleRun f mask_image] |}.
Proof.
  unfold reg_mspace_masks.apply_transform_to_mask. intros H.
  do 9 peel H.
  apply mret_returned in H as [-> ->].
  eexists _, _, _. repeat (split; [eassumption|]).
  cbv zeta. split; [reflexivity|].
  unfold with_line, with_fs, log_run, mask_messages; cbn [fs wall_clock stdout executed].
  rewrite <- !app_assoc. reflexivity.
Qed.

(** The two scripts carry the same [apply_transform_to_mask]. *)
Lemma apply_transform_to_mask_same :
  coreg_pipeline.apply_transform_to_mask = reg_mspace_masks.apply_transform_to_mask.
Proof. reflexivity. Qed.

Lemma apply_transform_to_flair_returned
      flair_path magnitude_path transform_matrix out_flair w r w' :
  coreg_pipeline.apply_transform_to_flair
    flair_path magnitude_path transform_matrix out_flair w = Returned r w' ->
  exists rawF rawM T,
    fs w !! magnitude_path = Some (ImageFile rawF) /\
    fs w !! flair_path = Some (ImageFile rawM) /\
    fs w !! transform_matrix = Some (TransformFile T) /\
    let fixed := Cast rawF sitkFloat32 in
    let flair_image := Cast rawM sitkFloat32 in
    let out := or_default out_flair flair_path "_toMag.nii.gz" in
    let f := configured_resampler fixed sitkLinear T in
    r = out /\
    w' = {| fs := <[out := ImageFile (Resample f flair_image)]> (fs w);
            wall_clock := wall_clock w;
            stdout := stdout w ++ flair_messages magnitude_path flair_path out;
            executed := executed w ++ [ResampleRun f flair_image] |}.
Proof.
  unfold coreg_pipeline.apply_transform_to_flair. intros H.
  do 9 peel H.
  apply mret_returned in H as [-> ->].
  eexists _, _, _. repeat (split; [eassumption|]).
  cbv zeta. split; [reflexivity|].
  unfold with_line, with_fs, log_run, flair_messages; cbn [fs wall_clock stdout executed].
  rewrite <- !app_assoc. reflexivity.
Qed.

(** A normal return of the pipeline is a normal return of its three steps,
    chained through the intermediate worlds. *)
Lemma main_registration_pipeline_returned t1_path flair magnitude_path mask_path w r w' :
  coreg_pipeline.main_registration_pipeline t1_path flair magnitude_path mask_path w
    = Returned r w' ->
  exists registered_t1 transform_matrix transformed_mask registered_flair w1 w2,
    coreg_pipeline.register_t1_to_magnitude t1_path magnitude_path None None false w
      = Returned (registered_t1, transform_matrix) w1 /\
    coreg_pipeline.apply_transform_to_mask mask_path magnitude_path transform_matrix None w1
      = Returned transformed_mask w2 /\
    coreg_pipeline.apply_transform_to_flair flair magnitude_path transform_matrix None w2
      = Returned registered_flair w' /\
    r = (registered_t1, transformed_mask, registered_flair).
Proof.
  unfold coreg_pipeline.main_registration_pipeline. intros H.
  apply bind_returned in H as ([registered_t1 transform_matrix] & w1 & H1 & H).
  cbv beta iota in H.
  apply bind_returned in H as (transformed_mask & w2 & H2 & H).
  apply bind_returned in H as (registered_flair & w3 & H3 & H).
  apply mret_returned in H as [-> ->].
  exists registered_t1, transform_matrix, transformed_mask, registered_flair, w1, w2.
  auto.
Qed.

End Returns.

(** ** The longitudinal script *)

Section Walker.





End Walker.

(** ** C10: default output names *)

Section DefaultNames.
Context `{O : Optimizer}.


End DefaultNames.


(** ** C2: one estimate, persisted, reused unmodified *)

Section Propagation.
Context `{O : Optimizer}.

(** C2.  A run of [main_registration_pipeline] that returns has executed
    exactly one registration and three resamplings (T1, mask, FLAIR), all
    three through the transform [T] that the registration returned; [T] is
    stored under the transform path by [register_t1_to_magnitude] and is
    still stored there, unchanged, when the pipeline ends.  A later
    stand-alone [apply_transform_to_mask] (the lesion-label script) that
    finds [T] under that path runs no registration, resamples through [T],
    and leaves the stored transform as it is unless it is told to write its
    output over it. *)
Theorem transform_persisted_and_reused t1_path flair magnitude_path mask_path w r w' :
  coreg_pipeline.main_registration_pipeline t1_path flair magnitude_path mask_path w
    = Returned r w' ->
  let transform_matrix := or_default None t1_path "_toMag_transform.tfm" in
  exists R seed fixed moving T rep f1 f2 mask_image f3 flair_image w1,
    optimize R seed fixed moving = inr (T, rep) /\
    coreg_pipeline.register_t1_to_magnitude t1_path magnitude_path None None false w
      = Returned (or_default None t1_path "_toMag.nii.gz", transform_matrix) w1 /\
    fs w1 !! transform_matrix = Some (TransformFile T) /\
    executed w' = executed w ++ [ RegistrationRun R seed fixed moving;
                                  ResampleRun f1 moving;
                                  ResampleRun f2 mask_image;
                                  ResampleRun f3 flair_image ] /\
    ResampleTransform f1 = T /\ ResampleTransform f2 = T /\ ResampleTransform f3 = T /\
    fs w' !! transform_matrix = Some (TransformFile T) /\
    forall later mask_path' magnitude_path' out_mask r' later',
      fs later !! transform_matrix = Some (TransformFile T) ->
      reg_mspace_masks.apply_transform_to_mask
        mask_path' magnitude_path' transform_matrix out_mask later = Returned r' later' ->
      (exists f image, executed later' = executed later ++ [ResampleRun f image] /\
                       ResampleTransform f = T) /\
      (r' <> transform_matrix -> fs later' !! transform_matrix = Some (TransformFile T)).
Proof.
  intros H. cbv zeta.
  apply main_registration_pipeline_returned in H
    as (registered_t1 & tm & transformed_mask & registered_flair & w1 & w2
        & Hreg & Hmask & Hflair & ->).
  pose proof (register_t1_to_magnitude_paths _ _ _ _ _ _ _ _ Hreg) as Hpaths.
  injection Hpaths as -> ->.
  pose proof Hreg as Hreg'.
  apply register_t1_to_magnitude_returned in Hreg'
    as (rawF & rawM & T & rep & _ & _ & Hopt & _ & Hw1).
  cbv zeta in Hopt, Hw1. unfold or_default in *. cbv iota in *.
  set (tm := fst (os_path.splitext t1_path) +:+ "_toMag_transform.tfm") in *.
  assert (Htm1 : fs w1 !! tm = Some (TransformFile T))
    by (rewrite Hw1; cbn [fs]; apply lookup_insert_eq).
  rewrite apply_transform_to_mask_same in Hmask.
  apply apply_transform_to_mask_returned in Hmask
    as (rawF2 & rawK & T2 & _ & _ & HT2 & _ & Hw2).
  rewrite Htm1 in HT2. injection HT2 as <-.
  cbv zeta in Hw2.
  assert (Htm2 : fs w2 !! tm = Some (TransformFile T)).
  { rewrite Hw2. cbn [fs]. rewrite lookup_insert_ne; [exact Htm1|].
    unfold or_default. apply image_name_is_not_transform_name. }
  apply apply_transform_to_flair_returned in Hflair
    as (rawF3 & rawL & T3 & _ & _ & HT3 & _ & Hw3).
  rewrite Htm2 in HT3. injection HT3 as <-.
  cbv zeta in Hw3.
  eexists _, _, _, _, T, rep, _, _, _, _, _, w1.
  split; [exact Hopt|]. split; [exact Hreg|]. split; [exact Htm1|].
  split.
  { rewrite Hw3. cbn [executed]. rewrite Hw2. cbn [executed]. rewrite Hw1.
    cbn [executed]. rewrite <- !app_assoc. reflexivity. }
  do 3 (split; [reflexivity|]).
  split.
  { rewrite Hw3. cbn [fs]. rewrite lookup_insert_ne; [exact Htm2|].
    unfold or_default. apply image_name_is_not_transform_name. }
  clearbody tm.
  intros later mask_path' magnitude_path' out_mask r' later' Hstored Hlater.
  apply apply_transform_to_mask_returned in Hlater
    as (rawF4 & rawK4 & T4 & _ & _ & HT4 & Hr' & Hlater').
  rewrite Hstored in HT4. injection HT4 as <-.
  cbv zeta in Hr', Hlater'. split.
  - eexists _, _. rewrite Hlater'. cbn [executed]. split; reflexivity.
  - intros Hne. rewrite Hlater'. cbn [fs].
    rewrite lookup_insert_ne; [exact Hstored | congruence].
Qed.

End Propagation.

(** The fixture case with all four inputs, run end to end. *)
Lemma transform_persisted_and_reused_witness :
  let run :=
    coreg_pipeline.main_registration_pipeline (O := Fixtures.keeps_initial)
      "case/T1.nii.gz" "case/FLAIR.nii.gz" "case/mag.nii.gz" "case/mask.nii.gz"
      (Fixtures.world_of Fixtures.complete_case 7) in
  run = Returned ("case/T1.nii_toMag.nii.gz", "case/mask.nii_toMag.nii.gz",
                  "case/FLAIR.nii_toMag.nii.gz") (final_world run) /\
  exists T, fs (final_world run) !! "case/T1.nii_toMag_transform.tfm"
            = Some (TransformFile T).
Proof.
  cbv zeta.
  match goal with |- ?hyp /\ _ => assert (Hrun : hyp) by (vm_compute; reflexivity) end.
  split; [exact Hrun|].
  destruct (transform_persisted_and_reused _ _ _ _ _ _ _ Hrun)
    as (R & seed & fixed & moving & T & rep & f1 & f2 & mask_image & f3
        & flair_image & w1 & _ & _ & _ & _ & _ & _ & _ & Hstored & _).
  exists T. exact Hstored.
Defined.


(** ** C1: interpolation follows the pixel type *)

Section Emits.
Context (P : FilterRun -> Prop).

Lemma emits_ret {A} (Q : A -> Prop) a : Q a -> emits P Q (mret a).
Proof.
  intros Ha w. split.
  - exists []. cbn. now rewrite app_nil_r.
  - intros b w' E. apply mret_returned in E as [-> _]. exact Ha.
Qed.

Lemma emits_bind {A B} (Q : A -> Prop) (Q' : B -> Prop) (m : Proc A) (k : A -> Proc B) :
  emits P Q m -> (forall a, Q a -> emits P Q' (k a)) -> emits P Q' (m ≫= k).
Proof.
  intros Hm Hk w. destruct (Hm w) as [(new1 & E1 & F1) Hq].
  unfold mbind, Proc_bind.
  destruct (m w) as [a w1|e w1] eqn:Em; cbn [final_world] in E1.
  - destruct (Hk a (Hq a w1 eq_refl) w1) as [(new2 & E2 & F2) Hq'].
    split; [|exact Hq'].
    exists (new1 ++ new2). rewrite E2, E1, app_assoc. split; [reflexivity|].
    apply Forall_app; auto.
  - split; [|discriminate]. exists new1. auto.
Qed.

(** A procedure that leaves the log alone. *)
Lemma emits_silent {A} (Q : A -> Prop) (m : Proc A) :
  (forall w, executed (final_world (m w)) = executed w) ->
  (forall w a w', m w = Returned a w' -> Q a) ->
  emits P Q m.
Proof.
  intros Hlog Hq w. split; [|apply Hq].
  exists []. rewrite Hlog, app_nil_r. auto.
Qed.

Lemma emits_ReadImage path ty :
  emits P (fun img => PixelID img = ty) (ReadImage path ty).
Proof.
  apply emits_silent.
  - intros w. unfold ReadImage. now destruct (fs w !! path) as [[| | |]|].
  - intros w img w' E. apply ReadImage_returned in E as (_ & raw & _ & ->).
    reflexivity.
Qed.

Lemma emits_ReadTransform path : emits P (fun _ => True) (ReadTransform path).
Proof.
  apply emits_silent; [|auto].
  intros w. unfold ReadTransform. now destruct (fs w !! path) as [[| | |]|].
Qed.

Lemma emits_WriteImage img path : emits P (fun _ => True) (WriteImage img path).
Proof.
  apply emits_silent; [|auto].
  intros w. unfold WriteImage. now destruct (fs w !! path) as [[| | |]|].
Qed.

Lemma emits_WriteTransform t path : emits P (fun _ => True) (WriteTransform t path).
Proof.
  apply emits_silent; [|auto].
  intros w. unfold WriteTransform. now destruct (fs w !! path) as [[| | |]|].
Qed.

Lemma emits_print s : emits P (fun _ => True) (print s).
Proof. apply emits_silent; [reflexivity | auto]. Qed.

Lemma emits_isdir path : emits P (fun _ => True) (os.isdir path).
Proof. apply emits_silent; [reflexivity | auto]. Qed.

Lemma emits_isfile path : emits P (fun _ => True) (os.isfile path).
Proof. apply emits_silent; [reflexivity | auto]. Qed.

Lemma emits_listdir path : emits P (fun _ => True) (os.listdir path).
Proof.
  apply emits_silent; [|auto].
  intros w. unfold os.listdir. now destruct (fs w !! path) as [[| | |]|].
Qed.

Lemma emits_ResampleExecute f input :
  P (ResampleRun f input) -> emits P (fun _ => True) (ResampleExecute f input).
Proof.
  intros Hp w. split; [|auto].
  exists [ResampleRun f input]. split; [reflexivity|]. auto.
Qed.


Lemma emits_for_each {A} (l : list A) (body : A -> Proc unit) :
  (forall x, emits P (fun _ => True) (body x)) ->
  emits P (fun _ => True) (for_each l body).
Proof.
  intros Hbody. induction l as [|x l IH]; cbn [for_each].
  - now apply emits_ret.
  - eapply emits_bind; [apply Hbody | intros _ _; exact IH].
Qed.

End Emits.

(** Chains [emits_bind] through a sequence of silent primitives. *)
Ltac emits_silent_steps :=
  repeat first
    [ apply emits_ret; exact I
    | eapply emits_bind;
      [ first [ apply emits_ReadTransform | apply emits_WriteImage
              | apply emits_WriteTransform | apply emits_print
              | apply emits_isdir | apply emits_isfile | apply emits_listdir ]
      | intros ? _; cbv beta zeta ] ].

Section Policy.
Context `{O : Optimizer}.








End Policy.

(** ** C3: what makes the estimate fail *)

Section Estimate.
Context `{O : Optimizer}.



End Estimate.



(** ** C4: a failing dependent *)

Section Dependents.
Context `{O : Optimizer}.

(** C4 (as the code has it).  [main_registration_pipeline] applies the
    dependents one after the other and handles no error: when the mask
    application raises, the pipeline raises that same exception in the very
    world the mask application left.  The FLAIR is then neither read nor
    resampled nor written, the pipeline returns nothing, and no report of a
    partial result exists. *)
Theorem mask_failure_ends_the_pipeline
        t1_path flair magnitude_path mask_path w registered_t1 transform_matrix w1 e w2 :
  coreg_pipeline.register_t1_to_magnitude t1_path magnitude_path None None false w
    = Returned (registered_t1, transform_matrix) w1 ->
  coreg_pipeline.apply_transform_to_mask mask_path magnitude_path transform_matrix None w1
    = Raised e w2 ->
  coreg_pipeline.main_registration_pipeline t1_path flair magnitude_path mask_path w
    = Raised e w2.
Proof.
  intros Hreg Hmask. unfold coreg_pipeline.main_registration_pipeline.
  rewrite (bind_step _ _ _ _ _ Hreg). cbv beta iota.
  apply bind_abort. exact Hmask.
Qed.

End Dependents.

(** The fixture case whose mask file is missing. *)
Lemma mask_failure_ends_the_pipeline_witness :
  let w := Fixtures.world_of Fixtures.case_without_mask 7 in
  exists w2,
    coreg_pipeline.main_registration_pipeline (O := Fixtures.keeps_initial)
      "case/T1.nii.gz" "case/FLAIR.nii.gz" "case/mag.nii.gz" "case/mask.nii.gz" w
    = Raised (RuntimeError "ReadImage: case/mask.nii.gz") w2.
Proof.
  cbv zeta.
  pose (reg := coreg_pipeline.register_t1_to_magnitude (O := Fixtures.keeps_initial)
                 "case/T1.nii.gz" "case/mag.nii.gz" None None false
                 (Fixtures.world_of Fixtures.case_without_mask 7)).
  pose (msk := coreg_pipeline.apply_transform_to_mask
                 "case/mask.nii.gz" "case/mag.nii.gz" "case/T1.nii_toMag_transform.tfm"
                 None (final_world reg)).
  exists (final_world msk).
  apply (mask_failure_ends_the_pipeline (O := Fixtures.keeps_initial)
           _ _ _ _ _ "case/T1.nii_toMag.nii.gz" "case/T1.nii_toMag_transform.tfm"
           (final_world reg)).
  - vm_compute. reflexivity.
  - vm_compute. reflexivity.
Defined.

(** C4 as stated fails.  With the mask file missing, the pipeline raises
    the mask's read error; the FLAIR output is never written, although the
    FLAIR step, run on the world the pipeline stopped in, would have
    succeeded. *)
Lemma missing_mask_leaves_flair_unprocessed :
  let w := Fixtures.world_of Fixtures.case_without_mask 7 in
  let run :=
    coreg_pipeline.main_registration_pipeline (O := Fixtures.keeps_initial)
      "case/T1.nii.gz" "case/FLAIR.nii.gz" "case/mag.nii.gz" "case/mask.nii.gz" w in
  let flair_alone :=
    coreg_pipeline.apply_transform_to_flair
      "case/FLAIR.nii.gz" "case/mag.nii.gz" "case/T1.nii_toMag_transform.tfm" None
      (final_world run) in
  run = Raised (RuntimeError "ReadImage: case/mask.nii.gz") (final_world run) /\
  fs (final_world run) !! "case/FLAIR.nii_toMag.nii.gz" = None /\
  Forall (fun r => match r with
                   | ResampleRun _ input => buffer input <> buffer (Cast Fixtures.flair sitkFloat32)
                   | RegistrationRun _ _ _ _ => True
                   end) (executed (final_world run)) /\
  flair_alone = Returned "case/FLAIR.nii_toMag.nii.gz" (final_world flair_alone).
Proof.
  cbv zeta. split; [vm_compute; reflexivity|]. split; [vm_compute; reflexivity|].
  split; [|vm_compute; reflexivity].
  vm_compute. repeat constructor. discriminate.
Qed.

(** ** C5: the sampling seed *)

Section Determinism.









End Determinism.

Section Seed.
Context `{O : Optimizer}.


End Seed.



(** ** C8: the stop condition *)

Section StopCondition.

Lemma bind_ext {A B} (m : Proc A) (k1 k2 : A -> Proc B) w :
  (forall a w1, k1 a w1 = k2 a w1) -> (m ≫= k1) w = (m ≫= k2) w.
Proof.
  intros Hk. unfold mbind, Proc_bind. destruct (m w); [apply Hk | reflexivity].
Qed.

(** A continuation that drops the report cannot tell two optimisers with
    the same transforms apart. *)
Lemma RegistrationExecute_report_dropped {B} (O1 O2 : Optimizer) R fixed moving
      (k : Transform -> Proc B) w :
  same_transforms O1 O2 ->
  (RegistrationExecute (O := O1) R fixed moving ≫= (fun '(T, _) => k T)) w
  = (RegistrationExecute (O := O2) R fixed moving ≫= (fun '(T, _) => k T)) w.
Proof.
  intros Hsame. specialize (Hsame R (drawn_seed R w) fixed moving).
  unfold mbind, Proc_bind, RegistrationExecute.
  destruct (optimize (Optimizer := O1) R (drawn_seed R w) fixed moving) as [m1|[T1 r1]],
           (optimize (Optimizer := O2) R (drawn_seed R w) fixed moving) as [m2|[T2 r2]];
    cbn in Hsame; try discriminate Hsame; injection Hsame as ->; reflexivity.
Qed.

(** C8 (as the code has it).  [register_t1_to_magnitude] keeps the
    transform that [Execute] returns and never asks the method object how
    the optimiser stopped.  So nothing it does depends on the stop
    condition: under two optimisers that return the same transforms, one
    converging and one running into the iteration cap, the function (and
    with it the whole pipeline) returns the same paths, writes the same
    files, prints the same lines.  No converged flag reaches the caller. *)
Theorem stop_condition_never_consulted (O1 O2 : Optimizer)
        t1_path flair magnitude_path mask_path out_matrix out_registered rigid w :
  same_transforms O1 O2 ->
  coreg_pipeline.register_t1_to_magnitude (O := O1)
    t1_path magnitude_path out_matrix out_registered rigid w
  = coreg_pipeline.register_t1_to_magnitude (O := O2)
      t1_path magnitude_path out_matrix out_registered rigid w /\
  coreg_pipeline.main_registration_pipeline (O := O1)
    t1_path flair magnitude_path mask_path w
  = coreg_pipeline.main_registration_pipeline (O := O2)
      t1_path flair magnitude_path mask_path w.
Proof.
  intros Hsame.
  assert (Hreg : forall om or rg v,
             coreg_pipeline.register_t1_to_magnitude (O := O1)
               t1_path magnitude_path om or rg v
             = coreg_pipeline.register_t1_to_magnitude (O := O2)
                 t1_path magnitude_path om or rg v).
  { intros om or rg v. unfold coreg_pipeline.register_t1_to_magnitude. cbv zeta.
    apply bind_ext. intros fixed_image v1.
    apply bind_ext. intros moving_image v2.
    apply (RegistrationExecute_report_dropped O1 O2 _ _ _
             (fun final_transform => _ ≫= _)).
    exact Hsame. }
  split; [apply Hreg|].
  unfold coreg_pipeline.main_registration_pipeline.
  unfold mbind at 1 5, Proc_bind at 1 5. now rewrite Hreg.
Qed.

End StopCondition.

(** The converging fixture optimiser against the one that hits the cap. *)
Lemma stop_condition_never_consulted_witness :
  let w := Fixtures.world_of Fixtures.complete_case 7 in
  coreg_pipeline.main_registration_pipeline (O := Fixtures.keeps_initial)
    "case/T1.nii.gz" "case/FLAIR.nii.gz" "case/mag.nii.gz" "case/mask.nii.gz" w
  = coreg_pipeline.main_registration_pipeline (O := Fixtures.hits_iteration_cap)
      "case/T1.nii.gz" "case/FLAIR.nii.gz" "case/mag.nii.gz" "case/mask.nii.gz" w.
Proof.
  cbv zeta.
  apply (stop_condition_never_consulted Fixtures.keeps_initial Fixtures.hits_iteration_cap
           "case/T1.nii.gz" "case/FLAIR.nii.gz" "case/mag.nii.gz" "case/mask.nii.gz"
           None None false).
  intros R seed fixed moving. cbn.
  destruct (initial_transform R); reflexivity.
Defined.

(** C8 as stated fails.  The optimiser stopped at the iteration cap
    ([converged] is false), and the caller gets exactly what a converged run
    gives: the same return value, the same final world, the line
    [[Registration Complete]] included. *)
Lemma iteration_cap_goes_unreported :
  let w := Fixtures.world_of Fixtures.complete_case 7 in
  let capped :=
    coreg_pipeline.register_t1_to_magnitude (O := Fixtures.hits_iteration_cap)
      "case/T1.nii.gz" "case/mag.nii.gz" None None false w in
  let fine :=
    coreg_pipeline.register_t1_to_magnitude (O := Fixtures.keeps_initial)
      "case/T1.nii.gz" "case/mag.nii.gz" None None false w in
  (exists R seed fixed moving T rep,
     In (RegistrationRun R seed fixed moving) (executed (final_world capped)) /\
     optimize (Optimizer := Fixtures.hits_iteration_cap) R seed fixed moving
       = inr (T, rep) /\
     converged rep = false) /\
  (exists R seed fixed moving T rep,
     In (RegistrationRun R seed fixed moving) (executed (final_world fine)) /\
     optimize (Optimizer := Fixtures.keeps_initial) R seed fixed moving
       = inr (T, rep) /\
     converged rep = true) /\
  capped = fine /\
  capped = Returned ("case/T1.nii_toMag.nii.gz", "case/T1.nii_toMag_transform.tfm")
                    (final_world capped) /\
  In (nl +:+ "[Registration Complete]") (stdout (final_world capped)).
Proof.
  cbv zeta. split; [|split; [|split; [|split]]].
  - eexists _, _, _, _, _, _. split; [vm_compute; left; reflexivity|].
    split; vm_compute; reflexivity.
  - eexists _, _, _, _, _, _. split; [vm_compute; left; reflexivity|].
    split; vm_compute; reflexivity.
  - vm_compute. reflexivity.
  - vm_compute. reflexivity.
  - vm_compute. left. reflexivity.
Qed.

(** ** Geometry of images and of the resampler *)

Section Geometry.

(** Image centres move with the image. *)
Lemma centers_of_translated_images fixed moving d :
  pure_translation fixed moving d ->
  veq (vsub (geometric_center moving) (geometric_center fixed)) d.
Proof.
  unfold pure_translation, geometric_center, GetSize, GetSpacing, GetDirection,
    GetOrigin, TransformContinuousIndexToPhysicalPoint.
  intros (-> & -> & -> & Ho).
  destruct (Size (grid fixed)) as [[nx ny] nz].
  destruct (Origin (grid moving)) as [[m0 m1] m2].
  destruct (Origin (grid fixed)) as [[f0 f1] f2].
  destruct (Spacing (grid fixed)) as [[s0 s1] s2].
  destruct (Direction (grid fixed)) as [[[[a b] c] [[d0 e] f]] [[g h] i]].
  destruct d as [[dx dy] dz].
  cbn in *. destruct Ho as (H0 & H1 & H2).
  rewrite H0, H1, H2. repeat split; ring.
Qed.

Lemma veq_within_one_voxel a b s :
  veq a b ->
  (let '(s0, s1, s2) := s in (0 < s0 /\ 0 < s1 /\ 0 < s2)%Q) ->
  within_one_voxel a b s.
Proof.
  destruct a as [[a0 a1] a2], b as [[b0 b1] b2], s as [[s0 s1] s2].
  unfold veq, within_one_voxel.
  intros (E0 & E1 & E2) (P0 & P1 & P2).
  split; [|split]; apply (proj2 (Qabs_Qle_condition _ _)); split; lra.
Qed.

(** Looking up in a concatenation of blocks of equal length. *)
Lemma lookup_bind_uniform {A B} (f : A -> list B) (k : nat) (l : list A) i j x :
  (forall y, length (f y) = k) ->
  l !! i = Some x -> (j < k)%nat ->
  (l ≫= f) !! (i * k + j)%nat = f x !! j.
Proof.
  intros Hlen. revert i. induction l as [|y l IH]; intros i Hi Hj; [discriminate|].
  rewrite bind_cons.
  destruct i as [|i]; cbn in Hi.
  - injection Hi as ->. cbn [Nat.mul Nat.add]. apply lookup_app_l.
    rewrite Hlen. exact Hj.
  - rewrite lookup_app_r by (rewrite Hlen; lia).
    rewrite Hlen. replace (S i * k + j - k)%nat with (i * k + j)%nat by lia.
    now apply IH.
Qed.

Lemma length_bind_uniform {A B} (f : A -> list B) (k : nat) (l : list A) :
  (forall y, length (f y) = k) -> length (l ≫= f) = (length l * k)%nat.
Proof.
  intros Hlen. induction l as [|y l IH]; [reflexivity|].
  rewrite bind_cons, length_app, Hlen, IH. cbn [length]. lia.
Qed.

(** Raster order: voxel [(x, y, z)] sits at offset [x + nx * (y + ny * z)]. *)
Lemma indices_lookup nx ny nz x y z :
  0 <= x < nx -> 0 <= y < ny -> 0 <= z < nz ->
  indices (nx, ny, nz) !! Z.to_nat (x + nx * (y + ny * z)) = Some (x, y, z).
Proof.
  intros Hx Hy Hz. unfold indices.
  assert (Hrow : forall y z : Z,
             length (seqZ 0 nx ≫= (fun x => [(x, y, z)])) = Z.to_nat nx).
  { intros. rewrite (length_bind_uniform _ 1%nat) by reflexivity.
    rewrite length_seqZ. lia. }
  assert (Hplane : forall z : Z,
             length (seqZ 0 ny ≫= (fun y => seqZ 0 nx ≫= (fun x => [(x, y, z)])))
             = (Z.to_nat ny * Z.to_nat nx)%nat).
  { intros. rewrite (length_bind_uniform _ (Z.to_nat nx)) by (intros; apply Hrow).
    rewrite length_seqZ. lia. }
  replace (Z.to_nat (x + nx * (y + ny * z)))
    with (Z.to_nat z * (Z.to_nat ny * Z.to_nat nx)
          + (Z.to_nat y * Z.to_nat nx + (Z.to_nat x * 1 + 0)))%nat by nia.
  rewrite (lookup_bind_uniform _ (Z.to_nat ny * Z.to_nat nx)%nat _ _ _ z);
    [|exact Hplane| |].
  - rewrite (lookup_bind_uniform _ (Z.to_nat nx) _ _ _ y); [|intros; apply Hrow| |].
    + rewrite (lookup_bind_uniform _ 1%nat _ _ _ x); [reflexivity|reflexivity| |lia].
      rewrite lookup_seqZ. split; lia.
    + rewrite lookup_seqZ. split; lia.
    + nia.
  - rewrite lookup_seqZ. split; lia.
  - nia.
Qed.

Lemma GetPixel_Resample f input i :
  in_grid (OutputGrid f) i ->
  GetPixel (Resample f input) i = resample_voxel f input i.
Proof.
  unfold in_grid, GetPixel, GetSize, Resample. cbn [grid buffer].
  destruct i as [[x y] z]. destruct (Size (OutputGrid f)) as [[nx ny] nz].
  intros (Hx & Hy & Hz).
  rewrite nth_lookup, list_lookup_fmap, indices_lookup by assumption.
  reflexivity.
Qed.

Lemma outside_voxel_is_fill f input i :
  in_grid (OutputGrid f) i ->
  DefaultPixelValue f = 0%Q ->
  IsInsideBuffer input (source_index f input i) = false ->
  GetPixel (Resample f input) i = 0%Q.
Proof.
  intros Hi Hfill Hout. rewrite GetPixel_Resample by exact Hi.
  unfold resample_voxel. rewrite Hout, Hfill. now destruct (PixelID input).
Qed.

(** Every resampler of the two scripts resamples onto its reference. *)
Lemma configured_resampler_onto reference i t source :
  resampled_onto reference (configured_resampler reference i t) source
                 (Resample (configured_resampler reference i t) source).
Proof.
  split; [reflexivity|]. split; [reflexivity|].
  intros v Hv Hout. now apply outside_voxel_is_fill.
Qed.






End Geometry.

(** ** C6: the initial transform *)

Section Initialisation.
Context `{O : Optimizer}.

(** C6.  The registration that [register_t1_to_magnitude] executes starts
    from the transform of [CenteredTransformInitializer] in [GEOMETRY]
    mode, not from the identity: unit matrix, centre of rotation at the
    geometric centre of the fixed image, translation equal to the
    difference of the two geometric centres.  Hence, when the moving image
    is the fixed one displaced by [d], that translation is [d], in
    particular within one voxel spacing of [d] on every axis. *)
Theorem initial_transform_aligns_centers
        t1_path magnitude_path out_matrix out_registered rigid w r w' :
  coreg_pipeline.register_t1_to_magnitude
    t1_path magnitude_path out_matrix out_registered rigid w = Returned r w' ->
  exists rawF rawM R rest initial,
    fs w !! magnitude_path = Some (ImageFile rawF) /\
    fs w !! t1_path = Some (ImageFile rawM) /\
    let fixed := Cast rawF sitkFloat32 in
    let moving := Cast rawM sitkFloat32 in
    executed w' = executed w ++ RegistrationRun R (wall_clock w) fixed moving :: rest /\
    initial_transform R = Some initial /\
    Matrix initial = identity3 /\
    Center initial = geometric_center fixed /\
    Translation initial = vsub (geometric_center moving) (geometric_center fixed) /\
    forall d,
      pure_translation fixed moving d -> positive_spacing fixed ->
      veq (Translation initial) d /\
      within_one_voxel (Translation initial) d (GetSpacing fixed).
Proof.
  intros H.
  apply register_t1_to_magnitude_returned in H
    as (rawF & rawM & T & rep & HF & HM & _ & _ & ->).
  exists rawF, rawM. eexists _, _, _.
  split; [exact HF|]. split; [exact HM|]. cbv zeta. cbn [executed].
  split; [reflexivity|]. split; [reflexivity|].
  split; [now destruct rigid|]. split; [reflexivity|]. split; [reflexivity|].
  intros d Hd Hs.
  pose proof (centers_of_translated_images _ _ _ Hd) as Hveq.
  split; [exact Hveq|].
  apply veq_within_one_voxel; [exact Hveq|]. exact Hs.
Qed.

End Initialisation.

(** The fixture T1 is the magnitude image moved one voxel along the first
    axis; the initial translation found for it is within a voxel of
    [(1, 0, 0)]. *)
Lemma initial_transform_aligns_centers_witness :
  let run :=
    coreg_pipeline.register_t1_to_magnitude (O := Fixtures.keeps_initial)
      "case/T1.nii.gz" "case/mag.nii.gz" None None false
      (Fixtures.world_of Fixtures.complete_case 7) in
  run = Returned ("case/T1.nii_toMag.nii.gz", "case/T1.nii_toMag_transform.tfm")
                 (final_world run) /\
  exists R seed fixed moving rest initial,
    executed (final_world run) = RegistrationRun R seed fixed moving :: rest /\
    initial_transform R = Some initial /\
    within_one_voxel (Translation initial) (1, 0, 0)%Q (1, 1, 1)%Q.
Proof.
  cbv zeta.
  match goal with |- ?hyp /\ _ => assert (Hrun : hyp) by (vm_compute; reflexivity) end.
  split; [exact Hrun|].
  destruct (initial_transform_aligns_centers _ _ _ _ _ _ _ _ Hrun)
    as (rawF & rawM & R & rest & initial & HF & HM & Hex & Hinit & _ & _ & _ & Hd).
  vm_compute in HF. injection HF as <-.
  vm_compute in HM. injection HM as <-.
  eexists R, _, _, _, rest, initial.
  split; [exact Hex|]. split; [exact Hinit|].
  apply (Hd (1, 0, 0)%Q).
  - repeat split; vm_compute; reflexivity.
  - repeat split.
Defined.

(** ** C7: the output grid and the fill value *)

Section OntoReference.
Context `{O : Optimizer}.

(** C7.  Each of the resampling functions, when it returns, has produced
    an image on the grid of the magnitude image it read as reference (its
    size, origin, spacing and axes, not those of the image resampled), in
    which every voxel that the transform maps outside the buffer of the
    resampled image holds the fill value [0]; and that image is what it
    wrote to its output path. *)
Theorem resampled_onto_the_reference_grid :
  (forall t1_path magnitude_path out_matrix out_registered rigid w r w',
     coreg_pipeline.register_t1_to_magnitude
       t1_path magnitude_path out_matrix out_registered rigid w = Returned r w' ->
     exists rawF rawM T,
       fs w !! magnitude_path = Some (ImageFile rawF) /\
       fs w !! t1_path = Some (ImageFile rawM) /\
       let reference := Cast rawF sitkFloat32 in
       let source := Cast rawM sitkFloat32 in
       let f := configured_resampler reference sitkLinear T in
       resampled_onto reference f source (Resample f source) /\
       (fst r <> snd r -> fs w' !! fst r = Some (ImageFile (Resample f source)))) /\
  (forall mask_path magnitude_path transform_matrix out_mask w r w',
     reg_mspace_masks.apply_transform_to_mask
       mask_path magnitude_path transform_matrix out_mask w = Returned r w' ->
     exists rawF rawM T,
       fs w !! magnitude_path = Some (ImageFile rawF) /\
       fs w !! mask_path = Some (ImageFile rawM) /\
       fs w !! transform_matrix = Some (TransformFile T) /\
       let reference := Cast rawF sitkFloat32 in
       let source := Cast rawM sitkUInt8 in
       let f := configured_resampler reference sitkNearestNeighbor T in
       resampled_onto reference f source (Resample f source) /\
       fs w' !! r = Some (ImageFile (Resample f source))) /\
  (forall flair_path magnitude_path transform_matrix out_flair w r w',
     coreg_pipeline.apply_transform_to_flair
       flair_path magnitude_path transform_matrix out_flair w = Returned r w' ->
     exists rawF rawM T,
       fs w !! magnitude_path = Some (ImageFile rawF) /\
       fs w !! flair_path = Some (ImageFile rawM) /\
       fs w !! transform_matrix = Some (TransformFile T) /\
       let reference := Cast rawF sitkFloat32 in
       let source := Cast rawM sitkFloat32 in
       let f := configured_resampler reference sitkLinear T in
       resampled_onto reference f source (Resample f source) /\
       fs w' !! r = Some (ImageFile (Resample f source))).
Proof.
  split; [|split].
  - intros * H.
    apply register_t1_to_magnitude_returned in H
      as (rawF & rawM & T & rep & HF & HM & _ & -> & ->).
    exists rawF, rawM, T.
    split; [exact HF|]. split; [exact HM|]. cbv zeta.
    split; [apply configured_resampler_onto|].
    cbn [fst snd fs]. intros Hne.
    rewrite lookup_insert_ne by congruence. apply lookup_insert_eq.
  - intros * H.
    apply apply_transform_to_mask_returned in H
      as (rawF & rawM & T & HF & HM & HT & -> & ->).
    exists rawF, rawM, T.
    split; [exact HF|]. split; [exact HM|]. split; [exact HT|]. cbv zeta.
    split; [apply configured_resampler_onto|].
    cbn [fs]. apply lookup_insert_eq.
  - intros * H.
    apply apply_transform_to_flair_returned in H
      as (rawF & rawM & T & HF & HM & HT & -> & ->).
    exists rawF, rawM, T.
    split; [exact HF|]. split; [exact HM|]. split; [exact HT|]. cbv zeta.
    split; [apply configured_resampler_onto|].
    cbn [fs]. apply lookup_insert_eq.
Qed.

End OntoReference.

(** The mask lying beside the magnitude image, resampled through the
    identity: the result is on the magnitude grid, and the voxels of its
    first column, which fall outside the mask, hold [0]. *)
Lemma resampled_onto_the_reference_grid_witness :
  let run :=
    reg_mspace_masks.apply_transform_to_mask
      "case/mask.nii.gz" "case/mag.nii.gz" "case/identity.tfm" None
      (Fixtures.world_of Fixtures.unaligned_case 7) in
  run = Returned "case/mask.nii_toMag.nii.gz" (final_world run) /\
  exists out,
    fs (final_world run) !! "case/mask.nii_toMag.nii.gz" = Some (ImageFile out) /\
    grid out = grid Fixtures.magnitude /\
    GetPixel out (0, 0, 0) = 0%Q /\ GetPixel out (0, 1, 0) = 0%Q.
Proof.
  cbv zeta.
  match goal with |- ?hyp /\ _ => assert (Hrun : hyp) by (vm_compute; reflexivity) end.
  split; [exact Hrun|].
  destruct (proj1 (proj2 (resampled_onto_the_reference_grid (O := Fixtures.keeps_initial)))
              _ _ _ _ _ _ _ Hrun)
    as (rawF & rawM & T & HF & HM & HT & (_ & Hgrid & Hfill) & Hfile).
  vm_compute in HF. injection HF as <-.
  vm_compute in HM. injection HM as <-.
  vm_compute in HT. injection HT as <-.
  eexists. split; [exact Hfile|]. split; [exact Hgrid|].
  split; apply Hfill; solve [cbn; lia | vm_compute; reflexivity].
Defined.

(** ** C9: labels are preserved *)

Section Labels.


End Labels.


(** ** The fixtures at work *)

Example pipeline_resamples_three_volumes :
  map is_registration
      (executed (final_world
         (coreg_pipeline.main_registration_pipeline (O := Fixtures.keeps_initial)
            "case/T1.nii.gz" "case/FLAIR.nii.gz" "case/mag.nii.gz" "case/mask.nii.gz"
            (Fixtures.world_of Fixtures.complete_case 7))))
  = [true; false; false; false].
Proof. vm_compute. reflexivity. Qed.

Example registered_t1_lands_on_magnitude_grid :
  fs (final_world
        (coreg_pipeline.main_registration_pipeline (O := Fixtures.keeps_initial)
           "case/T1.nii.gz" "case/FLAIR.nii.gz" "case/mag.nii.gz" "case/mask.nii.gz"
           (Fixtures.world_of Fixtures.complete_case 7)))
    !! "case/T1.nii_toMag.nii.gz"
  = Some (ImageFile {| PixelID := sitkFloat32;
                       grid := grid Fixtures.magnitude;
                       buffer := [1; 2; 3; 4]%Q |}).
Proof. vm_compute. reflexivity. Qed.

Example unaligned_mask_is_filled :
  buffer
    (Resample
       (configured_resampler Fixtures.magnitude sitkNearestNeighbor (AffineTransform 3))
       Fixtures.mask)
  = [0; 0; 0; 7]%Q.
Proof. vm_compute. reflexivity. Qed.

Example linear_interpolation_blends :
  LinearInterpolate Fixtures.t1 (1 # 2, 0, 0)%Q == 3 # 2.
Proof. vm_compute. reflexivity. Qed.

Example optimizer_error_surfaces :
  observable
    (coreg_pipeline.main_registration_pipeline (O := Fixtures.throws)
       "case/T1.nii.gz" "case/FLAIR.nii.gz" "case/mag.nii.gz" "case/mask.nii.gz"
       (Fixtures.world_of Fixtures.complete_case 7))
  = (inr (RuntimeError "metric: too many samples map outside moving image buffer"),
     list_to_map Fixtures.complete_case, []).
Proof. vm_compute. reflexivity. Qed.

(** The lesion-label script on the fixture study: before registration the
    visit has no transform and is skipped; after it one mask is resampled
    and written into the visit's [registered] folder. *)
Example walker_skips_unregistered_visit :
  stdout (final_world
    (reg_mspace_masks.transform_lesion_labels_in_directory "study"
       (Fixtures.world_of Fixtures.study 7)))
  = [ nl +:+ "=== Processing patient: p01 in study ===";
      "  Transform matrix not found in study/p01/2021_03/registered, skipping." ].
Proof. vm_compute. reflexivity. Qed.

Example walker_after_registration :
  let registered :=
    final_world
      (coreg_pipeline.register_t1_to_magnitude (O := Fixtures.keeps_initial)
         "study/p01/2021_03/registered/T1_corrected_canonical.nii.gz"
         "study/p01/2021_03/registered/mag_canonical.nii.gz"
         None None false (Fixtures.world_of Fixtures.study 7)) in
  let walked :=
    final_world
      (reg_mspace_masks.transform_lesion_labels_in_directory "study" registered) in
  (length (executed walked) = 3%nat) /\
  fs walked !! "study/p01/2021_03/registered/lesions_MSpace_Mask.nii.gz"
  = Some (ImageFile {| PixelID := sitkUInt8;
                       grid := grid Fixtures.magnitude;
                       buffer := [0; 3; 7; 3]%Q |}).
Proof. vm_compute. split; reflexivity. Qed.

(* ===================================================================== *)
(** * Further properties of the two registration scripts *)
(* ===================================================================== *)

Import Frame.

(** ** Which files a procedure may change *)

Section WritesOnly.
Context (P : string -> Prop).

Lemma writes_only_ret {A} (a : A) : writes_only P (mret a).
Proof. intros w p _. reflexivity. Qed.

Lemma writes_only_bind {A B} (m : Proc A) (k : A -> Proc B) :
  writes_only P m -> (forall a, writes_only P (k a)) -> writes_only P (m ≫= k).
Proof.
  intros Hm Hk w p Hp. specialize (Hm w p Hp).
  unfold mbind, Proc_bind. destruct (m w) as [a w1|e w1]; cbn [final_world] in *.
  - rewrite (Hk a w1 p Hp). exact Hm.
  - exact Hm.
Qed.

(** A procedure that leaves all files alone. *)
Lemma writes_only_reader {A} (m : Proc A) :
  (forall w, fs (final_world (m w)) = fs w) -> writes_only P m.
Proof. intros Hm w p _. now rewrite Hm. Qed.

Lemma writes_only_ReadImage path ty : writes_only P (ReadImage path ty).
Proof.
  apply writes_only_reader. intros w. unfold ReadImage.
  now destruct (fs w !! path) as [[| | |]|].
Qed.

Lemma writes_only_ReadTransform path : writes_only P (ReadTransform path).
Proof.
  apply writes_only_reader. intros w. unfold ReadTransform.
  now destruct (fs w !! path) as [[| | |]|].
Qed.

Lemma writes_only_print s : writes_only P (print s).
Proof. now apply writes_only_reader. Qed.

Lemma writes_only_isdir path : writes_only P (os.isdir path).
Proof. now apply writes_only_reader. Qed.

Lemma writes_only_isfile path : writes_only P (os.isfile path).
Proof. now apply writes_only_reader. Qed.

Lemma writes_only_listdir path : writes_only P (os.listdir path).
Proof.
  apply writes_only_reader. intros w. unfold os.listdir.
  now destruct (fs w !! path) as [[| | |]|].
Qed.

Lemma writes_only_ResampleExecute f input : writes_only P (ResampleExecute f input).
Proof. now apply writes_only_reader. Qed.

Lemma writes_only_RegistrationExecute `{O : Optimizer} R fixed moving :
  writes_only P (RegistrationExecute R fixed moving).
Proof.
  apply writes_only_reader. intros w. unfold RegistrationExecute.
  now destruct (optimize R (drawn_seed R w) fixed moving).
Qed.

Lemma writes_only_WriteImage img path : P path -> writes_only P (WriteImage img path).
Proof.
  intros Hpath w p Hp. unfold WriteImage.
  destruct (fs w !! path) as [[| | |]|]; cbn; try reflexivity;
    apply lookup_insert_ne; congruence.
Qed.

Lemma writes_only_WriteTransform t path :
  P path -> writes_only P (WriteTransform t path).
Proof.
  intros Hpath w p Hp. unfold WriteTransform.
  destruct (fs w !! path) as [[| | |]|]; cbn; try reflexivity;
    apply lookup_insert_ne; congruence.
Qed.

Lemma writes_only_for_each {A} (l : list A) (body : A -> Proc unit) :
  (forall x, writes_only P (body x)) -> writes_only P (for_each l body).
Proof.
  intros Hbody. induction l as [|x l IH]; cbn [for_each].
  - apply writes_only_ret.
  - apply writes_only_bind; [apply Hbody | intros _; exact IH].
Qed.

End WritesOnly.

Lemma writes_only_weaken {A} (P P' : string -> Prop) (m : Proc A) :
  (forall p, P p -> P' p) -> writes_only P m -> writes_only P' m.
Proof. intros Himp Hm w p Hp. apply Hm. intros HP. exact (Hp (Himp p HP)). Qed.

(** Chains [writes_only_bind] through procedures that write nothing. *)
Ltac writes_only_readers :=
  repeat first
    [ apply writes_only_ret
    | apply writes_only_bind;
      [ first [ apply writes_only_ReadImage | apply writes_only_ReadTransform
              | apply writes_only_print | apply writes_only_isdir
              | apply writes_only_isfile | apply writes_only_listdir
              | apply writes_only_ResampleExecute
              | apply writes_only_RegistrationExecute ]
      | intros ?; cbv beta zeta ] ].

Section PipelineFrame.
Context `{O : Optimizer}.

Lemma register_t1_to_magnitude_writes_only
      t1_path magnitude_path out_matrix out_registered rigid :
  writes_only
    (fun p => p = or_default out_registered t1_path "_toMag.nii.gz" \/
              p = or_default out_matrix t1_path "_toMag_transform.tfm")
    (coreg_pipeline.register_t1_to_magnitude
       t1_path magnitude_path out_matrix out_registered rigid).
Proof.
  unfold coreg_pipeline.register_t1_to_magnitude. cbv zeta.
  apply writes_only_bind; [apply writes_only_ReadImage | intros fixed_image].
  apply writes_only_bind; [apply writes_only_ReadImage | intros moving_image].
  apply writes_only_bind;
    [apply writes_only_RegistrationExecute | intros [final_transform rep]].
  apply writes_only_bind; [apply writes_only_ResampleExecute | intros registered_image].
  apply writes_only_bind; [apply writes_only_WriteImage; now left | intros _].
  apply writes_only_bind; [apply writes_only_WriteTransform; now right | intros _].
  writes_only_readers.
Qed.

Lemma apply_transform_to_mask_writes_only
      mask_path magnitude_path transform_matrix out_mask :
  writes_only (fun p => p = or_default out_mask mask_path "_toMag.nii.gz")
    (reg_mspace_masks.apply_transform_to_mask
       mask_path magnitude_path transform_matrix out_mask).
Proof.
  unfold reg_mspace_masks.apply_transform_to_mask. cbv zeta.
  apply writes_only_bind; [apply writes_only_ReadImage | intros fixed_image].
  apply writes_only_bind; [apply writes_only_ReadImage | intros mask_image].
  apply writes_only_bind; [apply writes_only_ReadTransform | intros transform].
  apply writes_only_bind; [apply writes_only_ResampleExecute | intros resampled_mask].
  apply writes_only_bind; [now apply writes_only_WriteImage | intros _].
  writes_only_readers.
Qed.

Lemma apply_transform_to_flair_writes_only
      flair_path magnitude_path transform_matrix out_flair :
  writes_only (fun p => p = or_default out_flair flair_path "_toMag.nii.gz")
    (coreg_pipeline.apply_transform_to_flair
       flair_path magnitude_path transform_matrix out_flair).
Proof.
  unfold coreg_pipeline.apply_transform_to_flair. cbv zeta.
  apply writes_only_bind; [apply writes_only_ReadImage | intros fixed_image].
  apply writes_only_bind; [apply writes_only_ReadImage | intros flair_image].
  apply writes_only_bind; [apply writes_only_ReadTransform | intros transform].
  apply writes_only_bind; [apply writes_only_ResampleExecute | intros resampled_flair].
  apply writes_only_bind; [now apply writes_only_WriteImage | intros _].
  writes_only_readers.
Qed.

(** X1.  Whether it returns or raises, [main_registration_pipeline]
    changes no file other than its four derived outputs: the registered
    T1, the transform, the resampled mask and the resampled FLAIR. *)
Theorem pipeline_writes_only_its_outputs t1_path flair magnitude_path mask_path w p :
  p <> or_default None t1_path "_toMag.nii.gz" ->
  p <> or_default None t1_path "_toMag_transform.tfm" ->
  p <> or_default None mask_path "_toMag.nii.gz" ->
  p <> or_default None flair "_toMag.nii.gz" ->
  fs (final_world
        (coreg_pipeline.main_registration_pipeline
           t1_path flair magnitude_path mask_path w)) !! p
  = fs w !! p.
Proof.
  intros H1 H2 H3 H4.
  set (P := fun q => q = or_default None t1_path "_toMag.nii.gz" \/
                     q = or_default None t1_path "_toMag_transform.tfm" \/
                     q = or_default None mask_path "_toMag.nii.gz" \/
                     q = or_default None flair "_toMag.nii.gz").
  assert (Hframe : writes_only P
            (coreg_pipeline.main_registration_pipeline
               t1_path flair magnitude_path mask_path));
    [|apply Hframe; unfold P; intuition congruence].
  unfold coreg_pipeline.main_registration_pipeline.
  apply writes_only_bind.
  { eapply writes_only_weaken; [|apply register_t1_to_magnitude_writes_only].
    unfold P. intuition. }
  intros [registered_t1 transform_matrix]. cbv beta iota.
  apply writes_only_bind.
  { eapply writes_only_weaken; [|apply apply_transform_to_mask_writes_only].
    unfold P. intuition. }
  intros transformed_mask.
  apply writes_only_bind.
  { eapply writes_only_weaken; [|apply apply_transform_to_flair_writes_only].
    unfold P. intuition. }
  intros registered_flair. apply writes_only_ret.
Qed.

End PipelineFrame.

(** The inputs of the fixture case are still there after the pipeline. *)
Lemma pipeline_writes_only_its_outputs_witness :
  let w := Fixtures.world_of Fixtures.complete_case 7 in
  fs (final_world
        (coreg_pipeline.main_registration_pipeline (O := Fixtures.keeps_initial)
           "case/T1.nii.gz" "case/FLAIR.nii.gz" "case/mag.nii.gz" "case/mask.nii.gz" w))
    !! "case/mag.nii.gz"
  = Some (ImageFile Fixtures.magnitude).
Proof.
  cbv zeta.
  rewrite (pipeline_writes_only_its_outputs (O := Fixtures.keeps_initial));
    [reflexivity | vm_compute; discriminate ..].
Defined.

(** ** [os.path.splitext] takes a path apart without losing anything *)

Section Splitext.

Lemma slice_to_from n p : Py.slice_to n p +:+ Py.slice_from n p = p.
Proof.
  revert p. induction n as [|n IH]; intros [|a s]; try reflexivity.
  cbn [Py.slice_to Py.slice_from]. rewrite append_String. now rewrite IH.
Qed.

Lemma append_empty_r p : p +:+ "" = p.
Proof. induction p as [|a s IH]; [reflexivity|]. rewrite append_String. now rewrite IH. Qed.

Lemma _splitext_loop_result p dotIndex fuel i r :
  os_path._splitext_loop p dotIndex fuel i = Some r ->
  r = (Py.slice_to dotIndex p, Py.slice_from dotIndex p).
Proof.
  revert i. induction fuel as [|fuel IH]; intros i; [discriminate|].
  cbn [os_path._splitext_loop].
  destruct (Py.char_differs p i os_path.extsep); [congruence | apply IH].
Qed.

(** At the index [rfind] reports, the string continues with the character. *)
Lemma rfind_slice_from p c i :
  Py.rfind p c = Z.of_nat i -> exists t, Py.slice_from i p = String c t.
Proof.
  revert i. induction p as [|a s IH]; intros i; cbn [Py.rfind]; [lia|].
  pose proof (rfind_range s c) as Hr.
  destruct (0 <=? Py.rfind s c) eqn:E.
  - apply Z.leb_le in E. intros Hi. destruct i as [|i]; [lia|].
    cbn [Py.slice_from]. apply IH. lia.
  - destruct (Ascii.eqb a c) eqn:Ea; [|lia].
    apply Ascii.eqb_eq in Ea as ->. intros Hi. destruct i; [|lia].
    cbn. eauto.
Qed.

(** Stem and extension put together give the path back. *)
Lemma splitext_recombine p :
  fst (os_path.splitext p) +:+ snd (os_path.splitext p) = p.
Proof.
  unfold os_path.splitext, os_path._splitext.
  destruct (_ <? _); [|apply append_empty_r].
  destruct (os_path._splitext_loop _ _ _ _) as [r|] eqn:E.
  - apply _splitext_loop_result in E as ->. apply slice_to_from.
  - apply append_empty_r.
Qed.

(** The extension is empty or begins with the dot. *)
Lemma splitext_extension p :
  snd (os_path.splitext p) = "" \/
  exists t, snd (os_path.splitext p) = String os_path.extsep t.
Proof.
  unfold os_path.splitext, os_path._splitext.
  pose proof (rfind_range p os_path.sep) as Hs.
  destruct (_ <? _) eqn:Elt; [|now left].
  apply Z.ltb_lt in Elt.
  destruct (os_path._splitext_loop _ _ _ _) as [r|] eqn:E; [|now left].
  apply _splitext_loop_result in E as ->. right. cbn [snd].
  apply rfind_slice_from. lia.
Qed.

(** A default output name is never the name it was derived from. *)
Lemma default_is_a_new_name path c suffix :
  c <> os_path.extsep ->
  or_default None path (String c suffix) <> path.
Proof.
  intros Hc E. unfold or_default in E.
  pose proof (splitext_recombine path) as Hp. rewrite <- Hp in E at 2.
  apply append_cancel_l in E.
  destruct (splitext_extension path) as [He|(t & He)]; rewrite He in E;
    [discriminate | congruence].
Qed.

End Splitext.

(** ** The image a function resamples is not what it overwrites *)

Section OwnSource.
Context `{O : Optimizer}.

(** X2.  With the output paths left to their defaults, each function
    writes beside the image it resamples, never over it: whether they
    return or raise, [register_t1_to_magnitude] leaves the T1 file,
    [apply_transform_to_mask] the mask file and [apply_transform_to_flair]
    the FLAIR file exactly as found. *)
Theorem default_outputs_spare_the_source :
  (forall t1_path magnitude_path rigid w,
     fs (final_world
           (coreg_pipeline.register_t1_to_magnitude
              t1_path magnitude_path None None rigid w)) !! t1_path
     = fs w !! t1_path) /\
  (forall mask_path magnitude_path transform_matrix w,
     fs (final_world
           (reg_mspace_masks.apply_transform_to_mask
              mask_path magnitude_path transform_matrix None w)) !! mask_path
     = fs w !! mask_path) /\
  (forall flair_path magnitude_path transform_matrix w,
     fs (final_world
           (coreg_pipeline.apply_transform_to_flair
              flair_path magnitude_path transform_matrix None w)) !! flair_path
     = fs w !! flair_path).
Proof.
  split; [|split]; intros.
  - apply register_t1_to_magnitude_writes_only.
    intros [E|E]; symmetry in E; revert E; now apply default_is_a_new_name.
  - apply apply_transform_to_mask_writes_only.
    intros E; symmetry in E; revert E; now apply default_is_a_new_name.
  - apply apply_transform_to_flair_writes_only.
    intros E; symmetry in E; revert E; now apply default_is_a_new_name.
Qed.

End OwnSource.

(** ** A registration that fails *)

Section FailedRegistration.
Context `{O : Optimizer}.







End FailedRegistration.


(** ** Two dependents sharing a stem *)

Section Collision.
Context `{O : Optimizer}.

(** X4.  The default output of a dependent is named after the stem of its
    path alone.  When the mask path and the FLAIR path have the same stem
    (they differ only in their last extension), the pipeline returns the
    same path for both, and what that file holds in the end is the
    [sitkFloat32] FLAIR result, written last: the resampled mask is lost. *)
Theorem same_stem_dependents_collide t1_path flair magnitude_path mask_path w r w' :
  coreg_pipeline.main_registration_pipeline t1_path flair magnitude_path mask_path w
    = Returned r w' ->
  fst (os_path.splitext mask_path) = fst (os_path.splitext flair) ->
  snd (fst r) = snd r /\
  exists out, fs w' !! snd (fst r) = Some (ImageFile out) /\ PixelID out = sitkFloat32.
Proof.
  intros H Hstem.
  apply main_registration_pipeline_returned in H
    as (registered_t1 & tm & transformed_mask & registered_flair & w1 & w2
        & _ & Hmask & Hflair & ->).
  rewrite apply_transform_to_mask_same in Hmask.
  apply apply_transform_to_mask_returned in Hmask as (? & ? & ? & _ & _ & _ & -> & _).
  apply apply_transform_to_flair_returned in Hflair as (? & ? & ? & _ & _ & _ & -> & ->).
  cbn [fst snd fs]. unfold or_default. rewrite Hstem. split; [reflexivity|].
  eexists. split; [apply lookup_insert_eq | reflexivity].
Qed.

End Collision.

(** Mask [case/dep.nii] and FLAIR [case/dep.gz]: one output for both. *)
Lemma same_stem_dependents_collide_witness :
  let run :=
    coreg_pipeline.main_registration_pipeline (O := Fixtures.keeps_initial)
      "case/T1.nii.gz" "case/dep.gz" "case/mag.nii.gz" "case/dep.nii"
      (Fixtures.world_of MoreFixtures.same_stem_case 7) in
  run = Returned ("case/T1.nii_toMag.nii.gz", "case/dep_toMag.nii.gz",
                  "case/dep_toMag.nii.gz") (final_world run) /\
  exists out, fs (final_world run) !! "case/dep_toMag.nii.gz" = Some (ImageFile out) /\
              PixelID out = sitkFloat32.
Proof.
  cbv zeta.
  match goal with |- ?hyp /\ _ => assert (Hrun : hyp) by (vm_compute; reflexivity) end.
  split; [exact Hrun|].
  apply (same_stem_dependents_collide (O := Fixtures.keeps_initial) _ _ _ _ _ _ _ Hrun).
  vm_compute. reflexivity.
Defined.

(** ** The lesion-label script as a whole *)

Section Script.

Lemma apply_transform_to_mask_emits (P : FilterRun -> Prop)
      mask_path magnitude_path transform_matrix out_mask :
  (forall f input, P (ResampleRun f input)) ->
  emits P (fun _ => True)
    (reg_mspace_masks.apply_transform_to_mask
       mask_path magnitude_path transform_matrix out_mask).
Proof.
  intros HP. unfold reg_mspace_masks.apply_transform_to_mask. cbv zeta.
  eapply emits_bind; [apply emits_ReadImage | intros fixed_image _].
  eapply emits_bind; [apply emits_ReadImage | intros mask_image _].
  eapply emits_bind; [apply emits_ReadTransform | intros transform _].
  eapply emits_bind; [apply emits_ResampleExecute, HP | intros resampled_mask _].
  emits_silent_steps.
Qed.

Lemma year_folder_body_emits (P : FilterRun -> Prop)
      patient_path lesion_label_file folder_name :
  (forall f input, P (ResampleRun f input)) ->
  emits P (fun _ => True)
    (reg_mspace_masks.year_folder_body patient_path lesion_label_file folder_name).
Proof.
  intros HP. unfold reg_mspace_masks.year_folder_body. cbv zeta.
  eapply emits_bind; [apply emits_isdir | intros [|] _; cbn [negb]];
    [|now apply emits_ret].
  destruct (Py.startswith folder_name "20"); cbn [negb]; [|now apply emits_ret].
  eapply emits_bind; [apply emits_isdir | intros [|] _; cbn [negb]];
    [|apply emits_print].
  eapply emits_bind; [apply emits_isfile | intros [|] _; cbn [negb]];
    [|apply emits_print].
  eapply emits_bind; [apply emits_isfile | intros [|] _; cbn [negb]];
    [|apply emits_print].
  eapply emits_bind; [apply emits_print | intros ? _].
  eapply emits_bind; [apply apply_transform_to_mask_emits, HP | intros ? _].
  now apply emits_ret.
Qed.

(** X5.  The lesion-label script estimates nothing: whatever the
    directory tree holds, and whether the run returns or raises, every
    filter that [transform_lesion_labels_in_directory] executes is a
    resampling; no registration is ever run. *)
Theorem lesion_script_never_registers root_dir w :
  exists new,
    executed (final_world
      (reg_mspace_masks.transform_lesion_labels_in_directory root_dir w))
    = executed w ++ new /\
    Forall (fun r => is_registration r = false) new.
Proof.
  revert w.
  assert (Hscript : emits (fun r => is_registration r = false) (fun _ => True)
            (reg_mspace_masks.transform_lesion_labels_in_directory root_dir));
    [|intros w; apply Hscript].
  unfold reg_mspace_masks.transform_lesion_labels_in_directory.
  eapply emits_bind; [apply emits_listdir | intros patients _].
  apply emits_for_each. intros patient_id.
  unfold reg_mspace_masks.patient_body. cbv zeta.
  eapply emits_bind; [apply emits_isdir | intros [|] _; cbn [negb]];
    [|now apply emits_ret].
  eapply emits_bind; [apply emits_print | intros ? _].
  eapply emits_bind; [apply emits_isdir | intros [|] _; cbn [negb]];
    [|apply emits_print].
  eapply emits_bind; [apply emits_listdir | intros entries _].
  destruct (_ <$> _); [|apply emits_print].
  eapply emits_bind; [apply emits_listdir | intros folders _].
  apply emits_for_each. intros folder_name.
  apply year_folder_body_emits. reflexivity.
Qed.

Lemma join_ends_with a b : ends_with b (os_path.join a b).
Proof.
  unfold os_path.join, ends_with.
  destruct (Py.startswith b "/"); [exists ""; reflexivity|].
  destruct (_ || _)%bool; [now exists a|].
  exists (a +:+ "/"). now rewrite append_assoc.
Qed.

Lemma year_folder_body_writes_only patient_path lesion_label_file folder_name :
  writes_only (ends_with "lesions_MSpace_Mask.nii.gz")
    (reg_mspace_masks.year_folder_body patient_path lesion_label_file folder_name).
Proof.
  unfold reg_mspace_masks.year_folder_body. cbv zeta.
  apply writes_only_bind; [apply writes_only_isdir | intros [|]; cbn [negb]];
    [|apply writes_only_ret].
  destruct (Py.startswith folder_name "20"); cbn [negb]; [|apply writes_only_ret].
  apply writes_only_bind; [apply writes_only_isdir | intros [|]; cbn [negb]];
    [|apply writes_only_print].
  apply writes_only_bind; [apply writes_only_isfile | intros [|]; cbn [negb]];
    [|apply writes_only_print].
  apply writes_only_bind; [apply writes_only_isfile | intros [|]; cbn [negb]];
    [|apply writes_only_print].
  apply writes_only_bind; [apply writes_only_print | intros _].
  apply writes_only_bind; [|intros _; apply writes_only_ret].
  eapply writes_only_weaken; [|apply apply_transform_to_mask_writes_only].
  intros p ->. apply join_ends_with.
Qed.

(** X6.  The only files the lesion-label script ever writes are named
    [lesions_MSpace_Mask.nii.gz]: whether it returns or raises,
    [transform_lesion_labels_in_directory] leaves every path that does not
    end in that name (every transform, magnitude image and lesion-label
    file among them) exactly as found. *)
Theorem lesion_script_writes_only_lesion_masks root_dir w p :
  ~ ends_with "lesions_MSpace_Mask.nii.gz" p ->
  fs (final_world
        (reg_mspace_masks.transform_lesion_labels_in_directory root_dir w)) !! p
  = fs w !! p.
Proof.
  revert w p.
  change (writes_only (ends_with "lesions_MSpace_Mask.nii.gz")
            (reg_mspace_masks.transform_lesion_labels_in_directory root_dir)).
  unfold reg_mspace_masks.transform_lesion_labels_in_directory.
  apply writes_only_bind; [apply writes_only_listdir | intros patients].
  apply writes_only_for_each. intros patient_id.
  unfold reg_mspace_masks.patient_body. cbv zeta.
  apply writes_only_bind; [apply writes_only_isdir | intros [|]; cbn [negb]];
    [|apply writes_only_ret].
  apply writes_only_bind; [apply writes_only_print | intros _].
  apply writes_only_bind; [apply writes_only_isdir | intros [|]; cbn [negb]];
    [|apply writes_only_print].
  apply writes_only_bind; [apply writes_only_listdir | intros entries].
  destruct (_ <$> _); [|apply writes_only_print].
  apply writes_only_bind; [apply writes_only_listdir | intros folders].
  apply writes_only_for_each. intros folder_name.
  apply year_folder_body_writes_only.
Qed.

Lemma for_each_app {A} (l1 l2 : list A) (body : A -> Proc unit) w :
  for_each (l1 ++ l2) body w
  = match for_each l1 body w with
    | Returned _ w1 => for_each l2 body w1
    | Raised e w1 => Raised e w1
    end.
Proof.
  revert w. induction l1 as [|x l1 IH]; intros w; [reflexivity|].
  cbn [app for_each]. unfold mbind, Proc_bind.
  destruct (body x w) as [u w1|e w1]; [apply IH | reflexivity].
Qed.

Lemma listdir_run path w entries :
  fs w !! path = Some (Directory entries) -> os.listdir path w = Returned entries w.
Proof. unfold os.listdir. now intros ->. Qed.

(** X7.  The script handles no error: when the work on one patient
    raises, [transform_lesion_labels_in_directory] raises that exception
    in the world reached at that moment, and the patients listed after it
    are not looked at. *)
Theorem first_failing_patient_ends_the_batch root_dir w done patient rest w1 e w2 :
  fs w !! root_dir = Some (Directory (done ++ patient :: rest)) ->
  for_each done (reg_mspace_masks.patient_body root_dir) w = Returned tt w1 ->
  reg_mspace_masks.patient_body root_dir patient w1 = Raised e w2 ->
  reg_mspace_masks.transform_lesion_labels_in_directory root_dir w = Raised e w2.
Proof.
  intros Hdir Hdone Hfail.
  unfold reg_mspace_masks.transform_lesion_labels_in_directory.
  rewrite (bind_step _ _ _ _ _ (listdir_run _ _ _ Hdir)).
  rewrite for_each_app, Hdone. cbn [for_each].
  apply bind_abort. exact Hfail.
Qed.

End Script.

(** The transform of the fixture visit survives the script. *)
Lemma lesion_script_writes_only_lesion_masks_witness :
  let w := Fixtures.world_of MoreFixtures.broken_study 7 in
  fs (final_world (reg_mspace_masks.transform_lesion_labels_in_directory "study" w))
    !! "study/p02/2022_01/registered/T1_corrected_canonical.nii_toMag_transform.tfm"
  = Some (TransformFile (AffineTransform 3)).
Proof.
  cbv zeta. rewrite lesion_script_writes_only_lesion_masks; [reflexivity|].
  intros [q E]. apply (f_equal Py.last_char) in E.
  rewrite last_char_app in E by discriminate. discriminate E.
Defined.

(** The first patient's label file is unreadable: the script stops there
    and the second patient, whose data are complete, gets no lesion mask. *)
Lemma first_failing_patient_ends_the_batch_witness :
  let w := Fixtures.world_of MoreFixtures.broken_study 7 in
  let run := reg_mspace_masks.transform_lesion_labels_in_directory "study" w in
  run = Raised (RuntimeError
                  "ReadImage: study/p01/RESULTS_xnatSpaceMS/p01_lesion_labels.nii.gz")
               (final_world run) /\
  fs (final_world run) !! "study/p02/2022_01/registered/lesions_MSpace_Mask.nii.gz" = None.
Proof.
  cbv zeta.
  assert (Hrun :
    reg_mspace_masks.transform_lesion_labels_in_directory "study"
      (Fixtures.world_of MoreFixtures.broken_study 7)
    = Raised (RuntimeError
                "ReadImage: study/p01/RESULTS_xnatSpaceMS/p01_lesion_labels.nii.gz")
             (final_world
                (reg_mspace_masks.patient_body "study" "p01"
                   (Fixtures.world_of MoreFixtures.broken_study 7)))).
  { apply (first_failing_patient_ends_the_batch "study" _ [] "p01" ["p02"]
             (Fixtures.world_of MoreFixtures.broken_study 7)).
    - vm_compute. reflexivity.
    - reflexivity.
    - vm_compute. reflexivity. }
  rewrite Hrun. cbn [final_world]. split; [reflexivity|].
  vm_compute. reflexivity.
Defined.

(** ** The dependents in either order *)

Section Commute.

Lemma WriteImage_writable img path w u w' :
  WriteImage img path w = Returned u w' -> not_directory (fs w) path.
Proof.
  unfold WriteImage, not_directory. intros E entries Hdir.
  rewrite Hdir in E. discriminate E.
Qed.

Lemma not_directory_before_insert files path node p :
  path <> p -> not_directory (<[path := node]> files) p -> not_directory files p.
Proof.
  unfold not_directory. intros Hne Hp entries.
  specialize (Hp entries). now rewrite lookup_insert_ne in Hp.
Qed.

(** [apply_transform_to_mask], run forwards. *)
Lemma apply_transform_to_mask_runs
      mask_path magnitude_path transform_matrix out_mask w rawF rawM T :
  fs w !! magnitude_path = Some (ImageFile rawF) ->
  fs w !! mask_path = Some (ImageFile rawM) ->
  fs w !! transform_matrix = Some (TransformFile T) ->
  let out := or_default out_mask mask_path "_toMag.nii.gz" in
  let f := configured_resampler (Cast rawF sitkFloat32) sitkNearestNeighbor T in
  not_directory (fs w) out ->
  reg_mspace_masks.apply_transform_to_mask
    mask_path magnitude_path transform_matrix out_mask w
  = Returned out
      {| fs := <[out := ImageFile (Resample f (Cast rawM sitkUInt8))]> (fs w);
         wall_clock := wall_clock w;
         stdout := stdout w ++ mask_messages magnitude_path mask_path out;
         executed := executed w ++ [ResampleRun f (Cast rawM sitkUInt8)] |}.
Proof.
  intros HF HM HT out f Hout.
  unfold reg_mspace_masks.apply_transform_to_mask. cbv zeta.
  fold (or_default out_mask mask_path "_toMag.nii.gz"). fold out.
  rewrite (bind_step _ _ _ _ _ (ReadImage_run _ sitkFloat32 _ _ HF)).
  rewrite (bind_step _ _ _ _ _ (ReadImage_run _ sitkUInt8 _ _ HM)).
  rewrite (bind_step _ _ _ _ _ (ReadTransform_run _ _ _ HT)).
  unfold mbind at 1, Proc_bind at 1, ResampleExecute at 1. cbv beta iota.
  erewrite bind_step by (apply WriteImage_run; exact Hout).
  unfold mbind, Proc_bind, print, mret, Proc_ret, with_line, with_fs, log_run,
    mask_messages.
  cbn [fs wall_clock stdout executed]. rewrite <- !app_assoc. reflexivity.
Qed.

(** [apply_transform_to_flair], run forwards. *)
Lemma apply_transform_to_flair_runs
      flair_path magnitude_path transform_matrix out_flair w rawF rawL T :
  fs w !! magnitude_path = Some (ImageFile rawF) ->
  fs w !! flair_path = Some (ImageFile rawL) ->
  fs w !! transform_matrix = Some (TransformFile T) ->
  let out := or_default out_flair flair_path "_toMag.nii.gz" in
  let f := configured_resampler (Cast rawF sitkFloat32) sitkLinear T in
  not_directory (fs w) out ->
  coreg_pipeline.apply_transform_to_flair
    flair_path magnitude_path transform_matrix out_flair w
  = Returned out
      {| fs := <[out := ImageFile (Resample f (Cast rawL sitkFloat32))]> (fs w);
         wall_clock := wall_clock w;
         stdout := stdout w ++ flair_messages magnitude_path flair_path out;
         executed := executed w ++ [ResampleRun f (Cast rawL sitkFloat32)] |}.
Proof.
  intros HF HL HT out f Hout.
  unfold coreg_pipeline.apply_transform_to_flair. cbv zeta.
  fold (or_default out_flair flair_path "_toMag.nii.gz"). fold out.
  rewrite (bind_step _ _ _ _ _ (ReadImage_run _ sitkFloat32 _ _ HF)).
  rewrite (bind_step _ _ _ _ _ (ReadImage_run _ sitkFloat32 _ _ HL)).
  rewrite (bind_step _ _ _ _ _ (ReadTransform_run _ _ _ HT)).
  unfold mbind at 1, Proc_bind at 1, ResampleExecute at 1. cbv beta iota.
  erewrite bind_step by (apply WriteImage_run; exact Hout).
  unfold mbind, Proc_bind, print, mret, Proc_ret, with_line, with_fs, log_run,
    flair_messages.
  cbn [fs wall_clock stdout executed]. rewrite <- !app_assoc. reflexivity.
Qed.

(** A function that returned could write its output. *)
Lemma apply_transform_to_mask_writable
      mask_path magnitude_path transform_matrix out_mask w r w' :
  reg_mspace_masks.apply_transform_to_mask
    mask_path magnitude_path transform_matrix out_mask w = Returned r w' ->
  not_directory (fs w) (or_default out_mask mask_path "_toMag.nii.gz").
Proof.
  unfold reg_mspace_masks.apply_transform_to_mask. intros H.
  do 4 peel H.
  apply bind_returned in H as (u & w1 & H1 & _).
  apply WriteImage_writable in H1. exact H1.
Qed.

Lemma apply_transform_to_flair_writable
      flair_path magnitude_path transform_matrix out_flair w r w' :
  coreg_pipeline.apply_transform_to_flair
    flair_path magnitude_path transform_matrix out_flair w = Returned r w' ->
  not_directory (fs w) (or_default out_flair flair_path "_toMag.nii.gz").
Proof.
  unfold coreg_pipeline.apply_transform_to_flair. intros H.
  do 4 peel H.
  apply bind_returned in H as (u & w1 & H1 & _).
  apply WriteImage_writable in H1. exact H1.
Qed.

(** X8.  The two dependent applications do not depend on each other's
    order.  If the mask and then the FLAIR were applied and both returned,
    and neither output path is the other's output or one of the files the
    other reads, then the FLAIR first and the mask second return the same
    paths and leave exactly the same files. *)
Theorem dependents_commute
        mask_path flair_path magnitude_path transform_matrix out_mask out_flair
        w rm w1 rf w2 :
  reg_mspace_masks.apply_transform_to_mask
    mask_path magnitude_path transform_matrix out_mask w = Returned rm w1 ->
  coreg_pipeline.apply_transform_to_flair
    flair_path magnitude_path transform_matrix out_flair w1 = Returned rf w2 ->
  rm <> rf ->
  rm <> magnitude_path -> rm <> transform_matrix -> rm <> flair_path ->
  rf <> magnitude_path -> rf <> transform_matrix -> rf <> mask_path ->
  exists v1 v2,
    coreg_pipeline.apply_transform_to_flair
      flair_path magnitude_path transform_matrix out_flair w = Returned rf v1 /\
    reg_mspace_masks.apply_transform_to_mask
      mask_path magnitude_path transform_matrix out_mask v1 = Returned rm v2 /\
    fs v2 = fs w2.
Proof.
  intros Hmask Hflair Hmf Hm1 Hm2 Hm3 Hf1 Hf2 Hf3.
  pose proof (apply_transform_to_mask_writable _ _ _ _ _ _ _ Hmask) as Wm.
  pose proof (apply_transform_to_flair_writable _ _ _ _ _ _ _ Hflair) as Wf.
  apply apply_transform_to_mask_returned in Hmask
    as (rawF & rawM & T & HF & HM & HT & Hrm & Hw1).
  apply apply_transform_to_flair_returned in Hflair
    as (rawF' & rawL & T' & HF' & HL & HT' & Hrf & Hw2).
  cbv zeta in Hrm, Hw1, Hrf, Hw2.
  rewrite <- Hrm in Wm, Hw1. rewrite <- Hrf in Wf, Hw2.
  rewrite Hw1 in HF', HL, HT', Wf. cbn [fs] in HF', HL, HT', Wf.
  rewrite lookup_insert_ne in HF', HL, HT' by congruence.
  rewrite HF in HF'. injection HF' as <-.
  rewrite HT in HT'. injection HT' as <-.
  apply not_directory_before_insert in Wf; [|exact Hmf].
  pose proof (apply_transform_to_flair_runs flair_path magnitude_path transform_matrix
                out_flair w rawF rawL T HF HL HT) as Rf.
  cbv zeta in Rf. rewrite <- Hrf in Rf. specialize (Rf Wf).
  match type of Rf with _ = Returned _ ?v => set (v1 := v) in * end.
  assert (HF1 : fs v1 !! magnitude_path = Some (ImageFile rawF))
    by (cbn [fs v1]; rewrite lookup_insert_ne by congruence; exact HF).
  assert (HM1 : fs v1 !! mask_path = Some (ImageFile rawM))
    by (cbn [fs v1]; rewrite lookup_insert_ne by congruence; exact HM).
  assert (HT1 : fs v1 !! transform_matrix = Some (TransformFile T))
    by (cbn [fs v1]; rewrite lookup_insert_ne by congruence; exact HT).
  pose proof (apply_transform_to_mask_runs mask_path magnitude_path transform_matrix
                out_mask v1 rawF rawM T HF1 HM1 HT1) as Rm.
  cbv zeta in Rm. rewrite <- Hrm in Rm.
  assert (Wm1 : not_directory (fs v1) rm)
    by (cbn [fs v1]; apply not_directory_insert_file; [discriminate | exact Wm]).
  specialize (Rm Wm1).
  exists v1. eexists. split; [exact Rf|]. split; [exact Rm|].
  cbn [fs v1]. rewrite Hw2, Hw1. cbn [fs].
  apply insert_insert_ne. congruence.
Qed.

End Commute.

(** The dependents of the fixture case, after its registration. *)
Lemma dependents_commute_witness :
  let registered :=
    final_world
      (coreg_pipeline.register_t1_to_magnitude (O := Fixtures.keeps_initial)
         "case/T1.nii.gz" "case/mag.nii.gz" None None false
         (Fixtures.world_of Fixtures.complete_case 7)) in
  let mask_first :=
    reg_mspace_masks.apply_transform_to_mask
      "case/mask.nii.gz" "case/mag.nii.gz" "case/T1.nii_toMag_transform.tfm" None
      registered in
  let flair_second :=
    coreg_pipeline.apply_transform_to_flair
      "case/FLAIR.nii.gz" "case/mag.nii.gz" "case/T1.nii_toMag_transform.tfm" None
      (final_world mask_first) in
  exists v1 v2,
    coreg_pipeline.apply_transform_to_flair
      "case/FLAIR.nii.gz" "case/mag.nii.gz" "case/T1.nii_toMag_transform.tfm" None
      registered = Returned "case/FLAIR.nii_toMag.nii.gz" v1 /\
    reg_mspace_masks.apply_transform_to_mask
      "case/mask.nii.gz" "case/mag.nii.gz" "case/T1.nii_toMag_transform.tfm" None
      v1 = Returned "case/mask.nii_toMag.nii.gz" v2 /\
    fs v2 = fs (final_world flair_second).
Proof.
  cbv zeta.
  eapply dependents_commute;
    [vm_compute; reflexivity | vm_compute; reflexivity | discriminate ..].
Defined.

(** ** Running a dependent again *)

Section Again.

(** X14.  Applying the transform to a mask again changes nothing more: if
    [apply_transform_to_mask] returned and its output path is none of the
    three files it reads, a second call with the same arguments returns
    the same path and leaves the files exactly as the first call left
    them. *)
Theorem apply_transform_to_mask_again
        mask_path magnitude_path transform_matrix out_mask w r w1 :
  reg_mspace_masks.apply_transform_to_mask
    mask_path magnitude_path transform_matrix out_mask w = Returned r w1 ->
  r <> magnitude_path -> r <> mask_path -> r <> transform_matrix ->
  exists w2,
    reg_mspace_masks.apply_transform_to_mask
      mask_path magnitude_path transform_matrix out_mask w1 = Returned r w2 /\
    fs w2 = fs w1.
Proof.
  intros Hrun H1 H2 H3.
  apply apply_transform_to_mask_returned in Hrun
    as (rawF & rawM & T & HF & HM & HT & Hr & Hw1).
  cbv zeta in Hr, Hw1. rewrite <- Hr in Hw1.
  assert (HF1 : fs w1 !! magnitude_path = Some (ImageFile rawF))
    by (rewrite Hw1; cbn [fs]; rewrite lookup_insert_ne by congruence; exact HF).
  assert (HM1 : fs w1 !! mask_path = Some (ImageFile rawM))
    by (rewrite Hw1; cbn [fs]; rewrite lookup_insert_ne by congruence; exact HM).
  assert (HT1 : fs w1 !! transform_matrix = Some (TransformFile T))
    by (rewrite Hw1; cbn [fs]; rewrite lookup_insert_ne by congruence; exact HT).
  pose proof (apply_transform_to_mask_runs mask_path magnitude_path transform_matrix
                out_mask w1 rawF rawM T HF1 HM1 HT1) as Rm.
  cbv zeta in Rm. rewrite <- Hr in Rm.
  assert (Wr : not_directory (fs w1) r).
  { intros entries. rewrite Hw1. cbn [fs]. rewrite lookup_insert_eq. discriminate. }
  specialize (Rm Wr).
  eexists. split; [exact Rm|].
  cbn [fs]. rewrite Hw1 at 1 2. cbn [fs]. apply insert_insert_eq.
Qed.

End Again.

(** The mask of the unaligned fixture case, resampled twice. *)
Lemma apply_transform_to_mask_again_witness :
  let once :=
    reg_mspace_masks.apply_transform_to_mask
      "case/mask.nii.gz" "case/mag.nii.gz" "case/identity.tfm" None
      (Fixtures.world_of Fixtures.unaligned_case 7) in
  exists w2,
    reg_mspace_masks.apply_transform_to_mask
      "case/mask.nii.gz" "case/mag.nii.gz" "case/identity.tfm" None
      (final_world once) = Returned "case/mask.nii_toMag.nii.gz" w2 /\
    fs w2 = fs (final_world once).
Proof.
  cbv zeta.
  assert (Hrun :
    reg_mspace_masks.apply_transform_to_mask
      "case/mask.nii.gz" "case/mag.nii.gz" "case/identity.tfm" None
      (Fixtures.world_of Fixtures.unaligned_case 7)
    = Returned "case/mask.nii_toMag.nii.gz"
        (final_world
           (reg_mspace_masks.apply_transform_to_mask
              "case/mask.nii.gz" "case/mag.nii.gz" "case/identity.tfm" None
              (Fixtures.world_of Fixtures.unaligned_case 7))))
    by (vm_compute; reflexivity).
  apply (apply_transform_to_mask_again _ _ _ _ _ _ _ Hrun); discriminate.
Defined.

(* ===================================================================== *)
(** * reorient.py: how the reoriented copy is named *)
(* ===================================================================== *)

Section Replace.

Lemma length_append s t :
  String.length (s +:+ t) = (String.length s + String.length t)%nat.
Proof.
  induction s as [|a s IH]; [reflexivity|].
  rewrite append_String. cbn [String.length]. now rewrite IH.
Qed.

Lemma prefix_String c o a s :
  String.prefix (String c o) (String a s)
  = if ascii_dec c a then String.prefix o s else false.
Proof. reflexivity. Qed.

Lemma contains_String q a s :
  Py.contains (String a s) q = (String.prefix q (String a s) || Py.contains s q)%bool.
Proof. reflexivity. Qed.

(** Without an occurrence of [old] there is nothing to replace. *)
Lemma replace_absent p c o new :
  Py.contains p (String c o) = false -> Str.replace p (String c o) new = p.
Proof.
  unfold Str.replace. induction p as [|a s IH]; [reflexivity|].
  rewrite contains_String. intros H. apply orb_false_elim in H as [Hp Hs].
  cbn [Str.replace_from]. rewrite Hp. now rewrite IH.
Qed.

(** [.nii.gz] cannot begin inside a text free of it and end inside a
    following [.nii.gz]: no proper end of the pattern is a beginning of it. *)
Lemma nii_gz_does_not_straddle a rest :
  a <> "" ->
  String.prefix ".nii.gz" a = false ->
  String.prefix ".nii.gz" (a +:+ ".nii.gz" +:+ rest) = false.
Proof.
  intros Ha Hp.
  destruct a as [|c0 a]; [congruence|]. clear Ha.
  rewrite append_String. rewrite prefix_String in Hp |- *.
  destruct (ascii_dec "." c0) as [<-|]; [|reflexivity].
  do 6 (destruct a as [|c a]; [reflexivity|];
        rewrite append_String; rewrite prefix_String in Hp |- *;
        match goal with
        | |- context [ascii_dec ?x c] => destruct (ascii_dec x c) as [<-|]; [|reflexivity]
        end).
  destruct a; discriminate Hp.
Qed.

(** The first occurrence of [.nii.gz] is cut out and the scan goes on
    behind it. *)
Lemma replace_nii_gz_app a rest :
  Py.contains a ".nii.gz" = false ->
  Str.replace (a +:+ ".nii.gz" +:+ rest) ".nii.gz" ""
  = a +:+ Str.replace rest ".nii.gz" "".
Proof.
  unfold Str.replace. induction a as [|c a IH]; intros H.
  - rewrite !append_empty. destruct rest; reflexivity.
  - rewrite contains_String in H. apply orb_false_elim in H as [Hp Hs].
    pose proof (nii_gz_does_not_straddle (String c a) rest
                  ltac:(discriminate) Hp) as Hns.
    rewrite append_String in Hns |- *. cbn [Str.replace_from].
    rewrite Hns, (IH Hs). now rewrite append_String.
Qed.

(** A single, final [.nii.gz] is stripped. *)
Lemma replace_nii_gz_suffix stem :
  Py.contains stem ".nii.gz" = false ->
  Str.replace (stem +:+ ".nii.gz") ".nii.gz" "" = stem.
Proof.
  intros Hstem.
  pose proof (replace_nii_gz_app stem "" Hstem) as E.
  change (".nii.gz" +:+ "") with ".nii.gz" in E.
  change (Str.replace "" ".nii.gz" "") with "" in E.
  now rewrite append_empty_r in E.
Qed.

End Replace.

Section Reorient.
Import nib posixpath.
Context `{N : Nibabel} `{H : Host}.

(** What [reorient_to_canonical] returns is fixed by its arguments. *)
Lemma reorient_to_canonical_returned image_path output_path w r w' :
  reorient.reorient_to_canonical image_path output_path w = Returned r w' ->
  r = match output_path with
      | None =>
          let '(base, ext) := os_path.splitext image_path in
          if String.eqb ext ".gz"
          then Str.replace image_path ".nii.gz" "" +:+ "_canonical.nii.gz"
          else base +:+ "_canonical" +:+ ext
      | Some p => p
      end.
Proof.
  unfold reorient.reorient_to_canonical. intros Hrun.
  apply bind_returned in Hrun as (img & w1 & _ & Hrun). cbv beta zeta in Hrun.
  apply bind_returned in Hrun as (u & w2 & _ & Hrun).
  apply bind_returned in Hrun as (u' & w3 & _ & Hrun).
  apply mret_returned in Hrun as [-> _].
  destruct output_path; [reflexivity|].
  destruct (os_path.splitext image_path) as [base ext].
  now destruct (String.eqb ext ".gz").
Qed.

(** X9.  For an image [<stem>.nii.gz] whose stem holds no further
    [.nii.gz], [reorient_to_canonical] without an output path saves to,
    and returns, [<stem>_canonical.nii.gz]. *)
Theorem reoriented_nii_gz_name stem w r w' :
  Py.contains stem ".nii.gz" = false ->
  reorient.reorient_to_canonical (stem +:+ ".nii.gz") None w = Returned r w' ->
  r = stem +:+ "_canonical.nii.gz".
Proof.
  intros Hstem Hrun. apply reorient_to_canonical_returned in Hrun as ->.
  rewrite splitext_nii_gz. cbn [String.eqb Ascii.eqb Bool.eqb].
  now rewrite replace_nii_gz_suffix.
Qed.

(** X10.  For an image whose last extension is not [.gz],
    [reorient_to_canonical] without an output path keeps that extension
    and puts [_canonical] in front of it: the name returned is
    [<base>_canonical<ext>] where [<base><ext>] is the input path; it is
    never the input path itself. *)
Theorem reoriented_name_keeps_extension image_path w r w' :
  snd (os_path.splitext image_path) <> ".gz" ->
  reorient.reorient_to_canonical image_path None w = Returned r w' ->
  let '(base, ext) := os_path.splitext image_path in
  image_path = base +:+ ext /\
  r = base +:+ "_canonical" +:+ ext /\
  r <> image_path.
Proof.
  intros Hext Hrun. apply reorient_to_canonical_returned in Hrun.
  pose proof (splitext_recombine image_path) as Hp.
  destruct (os_path.splitext image_path) as [base ext]. cbn [fst snd] in *.
  destruct (String.eqb ext ".gz") eqn:E; [apply String.eqb_eq in E; contradiction|].
  split; [now symmetry|]. split; [exact Hrun|].
  rewrite Hrun, <- Hp. intros Heq.
  apply append_cancel_l in Heq.
  apply (f_equal String.length) in Heq.
  rewrite length_append in Heq. cbn [String.length] in Heq. lia.
Qed.

(** X11.  A path ending in [.gz] takes the [.nii.gz] branch whether or
    not it is a [.nii.gz]: if it holds no [.nii.gz] at all (an
    [x.tar.gz], say), nothing is stripped and the copy is named
    [<image_path>_canonical.nii.gz], the whole input name included. *)
Theorem reoriented_plain_gz_name image_path w r w' :
  snd (os_path.splitext image_path) = ".gz" ->
  Py.contains image_path ".nii.gz" = false ->
  reorient.reorient_to_canonical image_path None w = Returned r w' ->
  r = image_path +:+ "_canonical.nii.gz".
Proof.
  intros Hext Hfree Hrun. apply reorient_to_canonical_returned in Hrun as ->.
  destruct (os_path.splitext image_path) as [base ext]. cbn [snd] in Hext.
  subst ext. cbn [String.eqb Ascii.eqb Bool.eqb].
  now rewrite replace_absent.
Qed.

(** X12.  [str.replace] strips every [.nii.gz], not only the final one: for
    a path [<a>.nii.gz<b>.nii.gz] the copy is named [<a><b>_canonical.nii.gz].
    An image inside a directory whose own name ends in [.nii.gz] is thus
    saved under a different directory than its source. *)
Theorem reoriented_name_strips_every_nii_gz a b w r w' :
  Py.contains a ".nii.gz" = false ->
  Py.contains b ".nii.gz" = false ->
  reorient.reorient_to_canonical (a +:+ ".nii.gz" +:+ b +:+ ".nii.gz") None w
    = Returned r w' ->
  r = a +:+ b +:+ "_canonical.nii.gz".
Proof.
  intros Ha Hb Hrun. apply reorient_to_canonical_returned in Hrun as ->.
  replace (a +:+ ".nii.gz" +:+ b +:+ ".nii.gz")
    with ((a +:+ ".nii.gz" +:+ b) +:+ ".nii.gz") at 1
    by now rewrite !append_assoc.
  rewrite splitext_nii_gz. cbn [String.eqb Ascii.eqb Bool.eqb].
  rewrite (replace_nii_gz_app a (b +:+ ".nii.gz") Ha).
  rewrite (replace_nii_gz_suffix b Hb).
  now rewrite append_assoc.
Qed.

End Reorient.

(** [raw/T1.nii.gz] of the fixture scans. *)
Lemma reoriented_nii_gz_name_witness :
  let run :=
    reorient.reorient_to_canonical (N := MoreFixtures.plain_nibabel)
      ("raw/T1" +:+ ".nii.gz") None (Fixtures.world_of MoreFixtures.scans 0) in
  run = Returned "raw/T1_canonical.nii.gz" (final_world run) /\
  "raw/T1_canonical.nii.gz" = "raw/T1" +:+ "_canonical.nii.gz".
Proof.
  cbv zeta.
  match goal with |- ?hyp /\ _ => assert (Hrun : hyp) by (vm_compute; reflexivity) end.
  split; [exact Hrun|].
  eapply (reoriented_nii_gz_name (N := MoreFixtures.plain_nibabel) "raw/T1" _ _ _);
    [vm_compute; reflexivity | exact Hrun].
Defined.

(** [raw/mask.nii] of the fixture scans. *)
Lemma reoriented_name_keeps_extension_witness :
  let run :=
    reorient.reorient_to_canonical (N := MoreFixtures.plain_nibabel)
      "raw/mask.nii" None (Fixtures.world_of MoreFixtures.scans 0) in
  run = Returned "raw/mask_canonical.nii" (final_world run) /\
  "raw/mask_canonical.nii" <> "raw/mask.nii".
Proof.
  cbv zeta.
  match goal with |- ?hyp /\ _ => assert (Hrun : hyp) by (vm_compute; reflexivity) end.
  split; [exact Hrun|].
  assert (Hext : snd (os_path.splitext "raw/mask.nii") <> ".gz")
    by (vm_compute; discriminate).
  pose proof (reoriented_name_keeps_extension (N := MoreFixtures.plain_nibabel) _ _ _ _
                Hext Hrun) as Hname.
  change (os_path.splitext "raw/mask.nii") with ("raw/mask", ".nii") in Hname.
  apply Hname.
Defined.

(** [raw/bundle.tar.gz] of the fixture scans. *)
Lemma reoriented_plain_gz_name_witness :
  let run :=
    reorient.reorient_to_canonical (N := MoreFixtures.plain_nibabel)
      "raw/bundle.tar.gz" None (Fixtures.world_of MoreFixtures.scans 0) in
  run = Returned "raw/bundle.tar.gz_canonical.nii.gz" (final_world run) /\
  "raw/bundle.tar.gz_canonical.nii.gz" = "raw/bundle.tar.gz" +:+ "_canonical.nii.gz".
Proof.
  cbv zeta.
  match goal with |- ?hyp /\ _ => assert (Hrun : hyp) by (vm_compute; reflexivity) end.
  split; [exact Hrun|].
  eapply (reoriented_plain_gz_name (N := MoreFixtures.plain_nibabel)
           "raw/bundle.tar.gz" _ _ _);
    [vm_compute; reflexivity | vm_compute; reflexivity | exact Hrun].
Defined.

(** [old.nii.gz/mag.nii.gz] of the fixture scans: saved under [old/]. *)
Lemma reoriented_name_strips_every_nii_gz_witness :
  let run :=
    reorient.reorient_to_canonical (N := MoreFixtures.plain_nibabel)
      ("old" +:+ ".nii.gz" +:+ "/mag" +:+ ".nii.gz") None
      (Fixtures.world_of MoreFixtures.scans 0) in
  run = Returned "old/mag_canonical.nii.gz" (final_world run) /\
  "old/mag_canonical.nii.gz" = "old" +:+ "/mag" +:+ "_canonical.nii.gz".
Proof.
  cbv zeta.
  match goal with |- ?hyp /\ _ => assert (Hrun : hyp) by (vm_compute; reflexivity) end.
  split; [exact Hrun|].
  eapply (reoriented_name_strips_every_nii_gz (N := MoreFixtures.plain_nibabel)
           "old" "/mag" _ _ _);
    [vm_compute; reflexivity | vm_compute; reflexivity | exact Hrun].
Defined.

(** ** [batch_reorient] *)

Section NoSeparator.

Lemma has_char_append c s t :
  Str.has_char c (s +:+ t) = (Str.has_char c s || Str.has_char c t)%bool.
Proof.
  induction s as [|a s IH]; [reflexivity|].
  rewrite append_String. cbn [Str.has_char]. rewrite IH. now rewrite orb_assoc.
Qed.

Lemma rfind_absent_has_char p c : Py.rfind p c = -1 -> Str.has_char c p = false.
Proof.
  induction p as [|a s IH]; [reflexivity|]. cbn [Py.rfind Str.has_char].
  pose proof (rfind_range s c) as Hr.
  destruct (0 <=? Py.rfind s c) eqn:E; [apply Z.leb_le in E; lia|].
  apply Z.leb_gt in E.
  destruct (Ascii.eqb a c); [lia|]. intros _. apply IH. lia.
Qed.

(** What follows the last [c] holds no [c]. *)
Lemma after_rfind_has_char p c :
  Str.has_char c (Py.slice_from (Z.to_nat (Py.rfind p c + 1)) p) = false.
Proof.
  induction p as [|a s IH]; [reflexivity|]. cbn [Py.rfind].
  pose proof (rfind_range s c) as Hr.
  destruct (0 <=? Py.rfind s c) eqn:E.
  - apply Z.leb_le in E.
    replace (Z.to_nat (Py.rfind s c + 1 + 1)) with (S (Z.to_nat (Py.rfind s c + 1)))
      by lia.
    exact IH.
  - apply Z.leb_gt in E. assert (Hs : Py.rfind s c = -1) by lia.
    destruct (Ascii.eqb a c) eqn:Ea.
    + cbn. now apply rfind_absent_has_char.
    + change (Z.to_nat (-1 + 1)) with 0%nat.
      cbn [Py.slice_from Str.has_char]. rewrite Ea.
      now apply rfind_absent_has_char.
Qed.

Lemma basename_has_no_separator p :
  Str.has_char os_path.sep (posixpath.basename p) = false.
Proof. apply after_rfind_has_char. Qed.

(** Deleting text brings in no character that was not there. *)
Lemma replace_from_has_char c skip p old :
  Str.has_char c p = false -> Str.has_char c (Str.replace_from skip p old "") = false.
Proof.
  revert skip. induction p as [|a s IH]; intros skip; [reflexivity|].
  cbn [Str.has_char Str.replace_from]. intros Hc.
  apply orb_false_elim in Hc as [Ha Hs].
  destruct skip; [|now apply IH].
  destruct (String.prefix old (String a s)).
  - rewrite append_empty. now apply IH.
  - cbn [Str.has_char]. rewrite Ha. now apply IH.
Qed.

Lemma replace_delete_has_char c p a old :
  Str.has_char c p = false -> Str.has_char c (Str.replace p (String a old) "") = false.
Proof. apply replace_from_has_char. Qed.

Lemma startswith_has_char c s :
  Str.has_char c s = false -> Py.startswith s (String c "") = false.
Proof.
  destruct s as [|a s]; [reflexivity|]. cbn [Str.has_char]. intros Hc.
  apply orb_false_elim in Hc as [Ha _].
  unfold Py.startswith. rewrite prefix_String.
  destruct (ascii_dec c a) as [->|]; [|reflexivity].
  now rewrite Ascii.eqb_refl in Ha.
Qed.

Lemma prefix_append a b : String.prefix a (a +:+ b) = true.
Proof.
  induction a as [|c a IH]; [now destruct b|].
  rewrite append_String, prefix_String.
  now destruct (ascii_dec c c).
Qed.

(** Joining a name without [/] puts it inside the directory. *)
Lemma join_stays_inside d name :
  Str.has_char os_path.sep name = false ->
  String.prefix d (os_path.join d name) = true.
Proof.
  intros Hname. unfold os_path.join.
  change "/" with (String os_path.sep "").
  rewrite (startswith_has_char _ _ Hname).
  destruct (_ || _)%bool; apply prefix_append.
Qed.

Lemma reoriented_name_inside output_dir img_path :
  String.prefix output_dir (reoriented_name output_dir img_path) = true.
Proof.
  apply join_stays_inside. rewrite has_char_append.
  rewrite replace_delete_has_char; [reflexivity|].
  apply replace_delete_has_char, basename_has_no_separator.
Qed.

End NoSeparator.

Section Batch.
Import nib posixpath.
Context `{N : Nibabel} `{H : Host}.

Lemma batch_reorient_loop_returned image_paths output_dir reoriented_paths w r w' :
  reorient.batch_reorient_loop image_paths output_dir reoriented_paths w
    = Returned r w' ->
  r = reoriented_paths ++ map (reoriented_name output_dir) image_paths.
Proof.
  revert reoriented_paths w.
  induction image_paths as [|img_path rest IH]; intros acc w Hrun;
    cbn [reorient.batch_reorient_loop map] in *.
  - apply mret_returned in Hrun as [-> _]. now rewrite app_nil_r.
  - apply bind_returned in Hrun as (p & w1 & Hp & Hrun).
    apply reorient_to_canonical_returned in Hp as ->.
    apply IH in Hrun as ->. now rewrite <- app_assoc.
Qed.

(** X13.  When [batch_reorient] returns, it returns one path per input,
    in input order; each is the input's base name with every [.nii.gz] and
    then every [.nii] removed, followed by [_canonical.nii.gz], joined to
    the output directory, and so lies inside the output directory
    wherever the input came from.  Inputs with the same base name in
    different directories therefore get the same output path. *)
Theorem batch_reorient_names image_paths output_dir w r w' :
  reorient.batch_reorient image_paths output_dir w = Returned r w' ->
  r = map (reoriented_name output_dir) image_paths /\
  length r = length image_paths /\
  Forall (fun p => String.prefix output_dir p = true) r.
Proof.
  unfold reorient.batch_reorient. intros Hrun.
  apply bind_returned in Hrun as (dir_exists & w1 & _ & Hrun).
  apply bind_returned in Hrun as (u & w2 & _ & Hrun).
  apply batch_reorient_loop_returned in Hrun as ->. cbn [app].
  split; [reflexivity|]. split; [apply length_map|].
  induction image_paths as [|q rest IH]; cbn [map]; constructor;
    [apply reoriented_name_inside | exact IH].
Qed.

End Batch.

(** Three of the fixture scans, two of them called [T1]. *)
Lemma batch_reorient_names_witness :
  let run :=
    reorient.batch_reorient (N := MoreFixtures.plain_nibabel) (H := MoreFixtures.plain_host)
      ["raw/T1.nii.gz"; "raw/mask.nii"; "other/T1.nii"] "out"
      (Fixtures.world_of MoreFixtures.scans 0) in
  run = Returned ["out/T1_canonical.nii.gz"; "out/mask_canonical.nii.gz";
                  "out/T1_canonical.nii.gz"] (final_world run) /\
  Forall (fun p => String.prefix "out" p = true)
         ["out/T1_canonical.nii.gz"; "out/mask_canonical.nii.gz";
          "out/T1_canonical.nii.gz"].
Proof.
  cbv zeta.
  match goal with |- ?hyp /\ _ => assert (Hrun : hyp) by (vm_compute; reflexivity) end.
  split; [exact Hrun|].
  apply (batch_reorient_names (N := MoreFixtures.plain_nibabel)
           (H := MoreFixtures.plain_host) _ _ _ _ _ Hrun).
Defined.
